(** * build_index.py: the wheelhouse builder

    A shallow embedding of [src/build_index.py] and the properties of its
    version reconciliation, artifact scan and index generation.

    Conventions of the embedding

    - A Python [str] is a [string]: a sequence of characters with code
      points below 256 (Rocq's [ascii] is eight bits wide).  Character
      classes ([str.isdigit], the line boundaries of [str.splitlines]) are
      the Unicode ones restricted to that range.
    - A Python exception is a value of [exn]; a computation that may raise
      returns a [result].
    - [dict] objects are [gmap]s, [tuple]s and [list]s are [list]s.
    - Everything the program asks of the operating system (directory
      listings, sub-processes, file writes) goes through the [OS] class;
      the calls with an effect are also recorded in a log of [event]s. *)

From Stdlib Require Import Ascii Sorted Permutation.
From Stdlib Require String.
From stdpp Require Import gmap strings list fin_maps sorting.

Set Default Proof Using "Type".

(* ===================================================================== *)
(** * Python built-ins used by the program *)
(* ===================================================================== *)

Module Py.

(** The exceptions the program can raise.  [KeyError] carries the missing
    key; [ValueError] is what a failed tuple unpacking raises;
    [UnboundLocalError] is the read of a local variable that was never
    assigned. *)
Inductive exn : Type :=
  | IndexError
  | KeyError (key : string)
  | ValueError
  | TypeError
  | UnboundLocalError
  | CalledProcessError
  | OSError.

Inductive result (A : Type) : Type :=
  | Ok (a : A)
  | Raise (e : exn).
Arguments Ok {A} a.
Arguments Raise {A} e.

Definition is_ok {A} (r : result A) : bool :=
  match r with Ok _ => true | Raise _ => false end.

Definition rbind {A B} (r : result A) (k : A → result B) : result B :=
  match r with Ok a => k a | Raise e => Raise e end.

(** [s.split(sep)] for a one-character separator: the fields between the
    occurrences of [sep]; never the empty list. *)
Fixpoint split (sep : ascii) (s : string) : list string :=
  match s with
  | EmptyString => [EmptyString]
  | String c s' =>
      if Ascii.eqb c sep then EmptyString :: split sep s'
      else match split sep s' with
           | field :: fields => String c field :: fields
           | [] => [String c EmptyString]
           end
  end.

(** [l[i]] for [i >= 0]. *)
Definition index {A} (l : list A) (i : nat) : result A :=
  match l !! i with
  | Some a => Ok a
  | None => Raise IndexError
  end.

(** [l[-1]]. *)
Definition index_last {A} (l : list A) : result A :=
  match last l with
  | Some a => Ok a
  | None => Raise IndexError
  end.

(** [s[0]]. *)
Definition str_index0 (s : string) : result ascii :=
  match s with
  | String c _ => Ok c
  | EmptyString => Raise IndexError
  end.

(** [s[i:]]. *)
Fixpoint str_from (i : nat) (s : string) : string :=
  match i, s with
  | O, _ => s
  | S i', String _ s' => str_from i' s'
  | S _, EmptyString => EmptyString
  end.

(** [c.isdigit()]: the decimal digits and, in this range of code points,
    the superscripts U+00B2, U+00B3 and U+00B9. *)
Definition isdigit (c : ascii) : bool :=
  let n := nat_of_ascii c in
  ((48 <=? n) && (n <=? 57)) || (n =? 178) || (n =? 179) || (n =? 185).

(** [x in t] for a tuple of strings: a left-to-right scan with [==]. *)
Definition contains (t : list string) (x : string) : bool :=
  existsb (String.eqb x) t.

(** [a, b = l]. *)
Definition unpack2 {A} (l : list A) : result (A * A) :=
  match l with
  | [a; b] => Ok (a, b)
  | _ => Raise ValueError
  end.

(** [s.replace(old, new)] for one-character [old] and [new]. *)
Fixpoint replace_char (old new : ascii) (s : string) : string :=
  match s with
  | EmptyString => EmptyString
  | String c s' =>
      String (if Ascii.eqb c old then new else c) (replace_char old new s')
  end.

(** [sep.join(l)]. *)
Fixpoint join (sep : string) (l : list string) : string :=
  match l with
  | [] => EmptyString
  | [x] => x
  | x :: l' => x +:+ sep +:+ join sep l'
  end.

(** [s.startswith(c)] and [s.endswith(suffix)]. *)
Definition startswith_char (c : ascii) (s : string) : bool :=
  match s with
  | String c' _ => Ascii.eqb c c'
  | EmptyString => false
  end.

Fixpoint endswith (suffix s : string) : bool :=
  String.eqb s suffix ||
  match s with
  | String _ s' => endswith suffix s'
  | EmptyString => false
  end.

(** The characters at which [str.splitlines] breaks a line. *)
Definition is_linebreak (c : ascii) : bool :=
  let n := nat_of_ascii c in
  ((10 <=? n) && (n <=? 13)) || ((28 <=? n) && (n <=? 30)) || (n =? 133).

(** [s.splitlines()].  [cur] is the line read so far, [after_cr] tells
    that the previous character was a carriage return, so that a line feed
    that follows belongs to the same line boundary. *)
Fixpoint splitlines_from (cur : string) (after_cr : bool) (s : string)
  : list string :=
  match s with
  | EmptyString =>
      match cur with EmptyString => [] | _ => [cur] end
  | String c s' =>
      if after_cr && Ascii.eqb c "010" then splitlines_from cur false s'
      else if is_linebreak c
      then cur :: splitlines_from EmptyString (Ascii.eqb c "013") s'
      else splitlines_from (cur +:+ String c EmptyString) false s'
  end.

Definition splitlines (s : string) : list string :=
  splitlines_from EmptyString false s.

(** [sorted(l)] on strings.  Python compares strings by code point; the
    sort is stable, and on a total order its result is the one sorted
    permutation of the input, computed here by insertion. *)
Fixpoint insert_sorted (x : string) (l : list string) : list string :=
  match l with
  | [] => [x]
  | y :: l' =>
      if String.leb x y then x :: y :: l' else y :: insert_sorted x l'
  end.

Fixpoint sorted (l : list string) : list string :=
  match l with
  | [] => []
  | x :: l' => insert_sorted x (sorted l')
  end.

End Py.
Export Py.

#[global] Instance result_ret : MRet result := @Ok.
#[global] Instance result_bind : MBind result := λ A B k r, rbind r k.

(* ===================================================================== *)
(** * pathlib: pure POSIX paths *)
(* ===================================================================== *)

Module PathLib.

(** A parsed path: its root ([EmptyString], ["/"] or ["//"]) and its
    components, none of which is empty or ["."]. *)
Record path : Type := Path { root : string; parts : list string }.

(** [posixpath.splitroot]: one leading slash or exactly two are a root,
    three or more count as one. *)
Definition splitroot (s : string) : string * string :=
  match s with
  | String c1 rest1 =>
      if Ascii.eqb c1 "/" then
        match rest1 with
        | String c2 rest2 =>
            if Ascii.eqb c2 "/" && negb (startswith_char "/" rest2)
            then ("//", rest2)
            else ("/", rest1)
        | EmptyString => ("/", rest1)
        end
      else (EmptyString, s)
  | EmptyString => (EmptyString, s)
  end.

Definition is_component (x : string) : bool :=
  negb (String.eqb x EmptyString) && negb (String.eqb x ".").

(** [Path(s)]. *)
Definition parse (s : string) : path :=
  let '(r, rel) := splitroot s in
  Path r (List.filter is_component (split "/" rel)).

(** [p / segment]: a segment that starts with a slash replaces [p]. *)
Definition joinpath (p : path) (segment : string) : path :=
  if startswith_char "/" segment then parse segment
  else Path (root p) (parts p ++ parts (parse segment)).

(** [str(p)]. *)
Definition str (p : path) : string :=
  match root p +:+ join "/" (parts p) with
  | EmptyString => "."
  | s => s
  end.

(** [p.name]. *)
Definition name (p : path) : string :=
  match last (parts p) with
  | Some n => n
  | None => EmptyString
  end.

End PathLib.
Import PathLib.

(* ===================================================================== *)
(** * The operating system *)
(* ===================================================================== *)

(** The parsed configuration file: a mapping whose values are strings or
    lists of strings. *)
Inductive cfg_value : Type :=
  | CStr (s : string)
  | CList (l : list string).

Definition fd : Type := nat.

(** What the program asks of its environment.  Queries read the world;
    calls with an effect return the new world, also when they raise. *)
Class OS (World : Type) : Type := {
  (** names of the entries of a directory; none when it is not one *)
  os_listdir : string → World → list string;
  os_is_dir : string → World → bool;
  os_is_file : string → World → bool;
  os_exists : string → World → bool;
  (** [os.makedirs(path, exist_ok=True)] *)
  os_makedirs : string → World → result unit * World;
  (** [shutil.rmtree(path)] *)
  os_rmtree : string → World → result unit * World;
  (** [subprocess.run(cmd, check=True, cwd=cwd)] *)
  os_run : list string → option string → World → result unit * World;
  (** [subprocess.check_output(cmd, text=True, cwd=cwd)] *)
  os_check_output : list string → option string → World → result string * World;
  (** [open(path, 'w')], [file.write(data)] and closing the file *)
  os_open_w : string → World → result fd * World;
  os_write : fd → string → World → result unit * World;
  os_close : fd → World → result unit * World;
  (** opening a file and [yaml.safe_load] of it *)
  os_load_yaml : string → World → result (gmap string cfg_value) * World
}.

Inductive event : Type :=
  | EvMakedirs (path : string)
  | EvRmtree (path : string)
  | EvRun (cmd : list string) (cwd : option string)
  | EvCheckOutput (cmd : list string) (cwd : option string)
  | EvOpen (path : string) (file : fd)
  | EvWrite (file : fd) (data : string)
  | EvClose (file : fd)
  | EvLoadYaml (path : string).

(* ===================================================================== *)
(** * The program *)
(* ===================================================================== *)

(** The fields of a [WheelhouseBuilder]. *)
Record builder : Type := Builder {
  __repos : cfg_value;
  __clone_dir : path;
  __package_names : list string;
  __existing_versions : gmap string (list string);
  __needed_versions : gmap string (list string)
}.

(** Property [repos]: [tuple(self.__repos)]; the tuple of a string is the
    tuple of its characters. *)
Definition repos (self : builder) : list string :=
  match __repos self with
  | CList l => l
  | CStr s => (λ c, String c EmptyString) <$> String.list_ascii_of_string s
  end.

Definition clone_dir (self : builder) : path := __clone_dir self.
Definition package_names (self : builder) : list string := __package_names self.
Definition existing_versions (self : builder) : gmap string (list string) :=
  __existing_versions self.
Definition needed_versions (self : builder) : gmap string (list string) :=
  __needed_versions self.

Definition package_name_from_repo (repo : string) : result string :=
  index_last (split "/" repo).

Definition repo_owner_and_package_name_from_repo (repo : string) : list string :=
  split "/" repo.

Definition pypi_root_directory : path := parse "simple/".

Definition package_path_from_package_name (package_name : string) : path :=
  joinpath pypi_root_directory package_name.

(** [d[k]] on a dictionary with string keys. *)
Definition getitem {V} (d : gmap string V) (k : string) : result V :=
  match d !! k with
  | Some v => Ok v
  | None => Raise (KeyError k)
  end.

(** ** The pure loops *)

(** The loop of [_detect_existing] over the artifact file names of one
    package (lines 72 to 79), started with the list [package_list]. *)
Fixpoint scan_wheels (package_name : string) (filenames : list string)
    (package_list : list string) : result (list string) :=
  match filenames with
  | [] => Ok package_list
  | filename :: rest =>
      let filename_split := split "-" filename in
      whl_package ← index filename_split 0;
      whl_version ← index filename_split 1;
      if String.eqb whl_package package_name then
        let package_list := package_list ++ [whl_version] in
        c ← str_index0 whl_version;
        if isdigit c
        then scan_wheels package_name rest (package_list ++ ["v" +:+ whl_version])
        else scan_wheels package_name rest package_list
      else scan_wheels package_name rest package_list
  end.

(** The comprehension of line 92.  Its condition is evaluated once for each
    element of [available_versions]: it looks the package up in the
    dictionary and tests membership in the tuple found.  The second
    component of the result counts these membership tests. *)
Fixpoint needed_comprehension (existing_versions : gmap string (list string))
    (package_name : string) (available_versions : list string)
  : result (list string * nat) :=
  match available_versions with
  | [] => Ok ([], 0)
  | version :: rest =>
      existing ← getitem existing_versions package_name;
      '(needed, tests) ← needed_comprehension existing_versions package_name rest;
      Ok (if contains existing version then needed else version :: needed,
          S tests)
  end.

(** The loop of lines 114 to 116: the value of [index] after it, given the
    value before it.  [i] is the position of the first character of [s]. *)
Fixpoint enumerate_until_digit (i : nat) (s : string) (index : option nat)
  : option nat :=
  match s with
  | EmptyString => index
  | String ch s' =>
      if isdigit ch then Some i else enumerate_until_digit (S i) s' (Some i)
  end.

Definition dquote : string := String "034" EmptyString.
Definition newline : string := String "010" EmptyString.

Definition html_header : string :=
  "<!DOCTYPE html>" +:+ newline +:+ "<html>" +:+ newline +:+ "  <body>" +:+ newline.

Definition html_footer : string :=
  "  </body>" +:+ newline +:+ "</html>".

(** The line written for one artifact (line 141). *)
Definition index_line (filename whl_version : string) : string :=
  "    <a href=" +:+ dquote +:+ filename +:+ dquote +:+ ">v" +:+ whl_version
    +:+ "</a><br>" +:+ newline.

(** The line written for one package in the root index (line 152). *)
Definition root_line (package_name : string) : string :=
  "    <a href=" +:+ dquote +:+ package_name +:+ "/" +:+ dquote +:+ ">"
    +:+ package_name +:+ "</a><br>" +:+ newline.

(** ** The state of a run and its monad *)

Section Program.

Context {World : Type} `{!OS World}.

(** The one builder object of a run, the world outside the process and the
    calls made to it so far. *)
Record state : Type := State {
  self : builder;
  world : World;
  log : list event
}.

(** A computation returns or raises, and leaves a state in both cases. *)
Definition M (A : Type) : Type := state → result A * state.

Definition ret {A} (a : A) : M A := λ st, (Ok a, st).

Definition bind {A B} (m : M A) (k : A → M B) : M B :=
  λ st, match m st with
        | (Ok a, st') => k a st'
        | (Raise e, st') => (Raise e, st')
        end.

Definition lift {A} (r : result A) : M A := λ st, (r, st).

Definition get_self : M builder := λ st, (Ok (self st), st).

Definition set_self (b : builder) : M unit :=
  λ st, (Ok (), State b (world st) (log st)).

(** A query of the world. *)
Definition ask {A} (q : World → A) : M A := λ st, (Ok (q (world st)), st).

(** A call with an effect: it changes the world and is logged. *)
Definition call {A} (op : World → result A * World) (ev : result A → event)
  : M A :=
  λ st, let '(r, w) := op (world st) in
        (r, State (self st) w (log st ++ [ev r])).

Notation "x <- m ;; k" := (bind m (λ x, k))
  (at level 20, m at level 99, k at level 200, only parsing).
Notation "' x <- m ;; k" := (bind m (λ x, k))
  (at level 20, x pattern, m at level 99, k at level 200, only parsing).
Notation "m ;; k" := (bind m (λ _, k))
  (at level 100, k at level 200, only parsing, right associativity).

(** [for x in l: body(x)]. *)
Fixpoint for_each {A} (l : list A) (body : A → M unit) : M unit :=
  match l with
  | [] => ret ()
  | x :: l' => body x ;; for_each l' body
  end.

(** A loop that carries the value of a local variable from one iteration
    to the next. *)
Fixpoint for_fold {A S} (l : list A) (s : S) (body : S → A → M S) : M S :=
  match l with
  | [] => ret s
  | x :: l' => s' <- body s x ;; for_fold l' s' body
  end.

(** [with open(path, 'w') as out_file: body]: the file is closed when the
    body returns and when it raises. *)
Definition with_open_w {A} (path : string) (body : fd → M A) : M A :=
  out_file <- call (os_open_w path)
                (λ r, EvOpen path (match r with Ok f => f | Raise _ => 0 end)) ;;
  λ st, match body out_file st with
        | (r, st1) =>
            match call (os_close out_file) (λ _, EvClose out_file) st1 with
            | (Ok _, st2) => (r, st2)
            | (Raise e, st2) => (Raise e, st2)
            end
        end.

Definition write (out_file : fd) (data : string) : M unit :=
  call (os_write out_file data) (λ _, EvWrite out_file data).

Definition makedirs (p : string) : M unit :=
  call (os_makedirs p) (λ _, EvMakedirs p).

(** [p.glob('*.whl')]: the names of the entries of [p] that end in
    [.whl], in the order the directory gives them. *)
Definition glob_whl (p : path) : M (list string) :=
  ask (λ w, List.filter (endswith ".whl") (os_listdir (str p) w)).

(** ** The functions of the module *)

Definition run (cmd : list string) (cwd : option string) : M unit :=
  call (os_run cmd cwd) (λ _, EvRun cmd cwd).

Definition _make_dirs : M unit :=
  makedirs (str pypi_root_directory) ;;
  b <- get_self ;;
  for_each (package_names b) (λ package_name,
    makedirs (str (package_path_from_package_name package_name))) ;;
  b <- get_self ;;
  makedirs ("./" +:+ str (clone_dir b)).

Definition set_existing_versions (package_name : string) (t : list string)
  : M unit :=
  b <- get_self ;;
  set_self (Builder (__repos b) (__clone_dir b) (__package_names b)
              (<[package_name := t]> (__existing_versions b))
              (__needed_versions b)).

Definition set_needed_versions (package_name : string) (t : list string)
  : M unit :=
  b <- get_self ;;
  set_self (Builder (__repos b) (__clone_dir b) (__package_names b)
              (__existing_versions b)
              (<[package_name := t]> (__needed_versions b))).

(** The body of the loop of [_detect_existing] over the packages. *)
Definition detect_existing_package (package_name : string) : M unit :=
  let package_path := package_path_from_package_name package_name in
  filenames <- glob_whl package_path ;;
  package_list <- lift (scan_wheels package_name filenames []) ;;
  set_existing_versions package_name package_list.

Definition _detect_existing : M unit :=
  b <- get_self ;;
  for_each (package_names b) detect_existing_package.

Definition __init__ (config : gmap string cfg_value) : M unit :=
  r <- lift (getitem config "repos") ;;
  b <- get_self ;;
  set_self (Builder r (__clone_dir b) (__package_names b)
              (__existing_versions b) (__needed_versions b)) ;;
  d <- lift (getitem config "clone_dir") ;;
  p <- lift (match d with CStr s => Ok (parse s) | CList _ => Raise TypeError end) ;;
  b <- get_self ;;
  set_self (Builder (__repos b) p (__package_names b)
              (__existing_versions b) (__needed_versions b)) ;;
  b <- get_self ;;
  names <- lift (mapM package_name_from_repo (repos b)) ;;
  set_self (Builder (__repos b) (__clone_dir b) names ∅ ∅) ;;
  _make_dirs ;;
  _detect_existing.

Definition _get_repo_tags (git_clone_path : path) : M (list string) :=
  let cmd := ["git"; "tag"; "--sort=v:refname"] in
  let cwd := Some (str git_clone_path) in
  out <- call (os_check_output cmd cwd) (λ _, EvCheckOutput cmd cwd) ;;
  ret (splitlines out).

(** Line 92. *)
Definition reconcile (package_name : string) (available_versions : list string)
  : M unit :=
  b <- get_self ;;
  r <- lift (needed_comprehension (existing_versions b) package_name
               available_versions) ;;
  set_needed_versions package_name r.1.

Definition _clone_repo (repo : string) : M unit :=
  '(repo_owner, package_name) <-
    lift (unpack2 (repo_owner_and_package_name_from_repo repo)) ;;
  b <- get_self ;;
  let git_clone_path := joinpath (clone_dir b) package_name in
  is_git <- ask (os_is_dir (str (joinpath git_clone_path ".git"))) ;;
  (if negb is_git then
     run ["git"; "clone";
          "git@github.com:" +:+ repo_owner +:+ "/" +:+ package_name +:+ ".git"]
       (Some (str (clone_dir b)))
   else
     run ["git"; "checkout"; "main"] (Some (str git_clone_path)) ;;
     run ["git"; "pull"] (Some (str git_clone_path)) ;;
     run ["git"; "checkout"; "main"] (Some (str git_clone_path))) ;;
  available_versions <- _get_repo_tags git_clone_path ;;
  reconcile package_name available_versions.

Definition clone_repos : M unit :=
  b <- get_self ;;
  for_each (repos b) _clone_repo.

(** One iteration of the loop of [_build_and_copy_wheels]; [index] is the
    local variable of lines 114 to 118, which keeps its value from one
    version to the next. *)
Definition build_and_copy_wheel (git_clone_path : path) (package_name : string)
    (index : option nat) (version : string) : M (option nat) :=
  let cwd := Some (str git_clone_path) in
  run ["git"; "checkout"; version] cwd ;;
  for_each ["dist"; "build"] (λ d,
    let p := joinpath git_clone_path d in
    present <- ask (os_exists (str p)) ;;
    if present then call (os_rmtree (str p)) (λ _, EvRmtree (str p))
    else ret ()) ;;
  run ["python"; "-m"; "build"; "--wheel"] cwd ;;
  let index := enumerate_until_digit 0 version index in
  let built_package_name := replace_char "-" "_" package_name in
  i <- lift (match index with
             | Some i => Ok i
             | None => Raise UnboundLocalError
             end) ;;
  let from_path :=
    joinpath git_clone_path
      ("dist/" +:+ built_package_name +:+ "-" +:+ str_from i version
         +:+ "-py3-none-any.whl") in
  run ["cp"; str from_path;
       str (joinpath (package_path_from_package_name package_name)
              (name from_path))] None ;;
  ret index.

Definition _build_and_copy_wheels (git_clone_path : path) : M unit :=
  let package_name := name git_clone_path in
  b <- get_self ;;
  versions <- lift (getitem (needed_versions b) package_name) ;;
  for_fold versions None (build_and_copy_wheel git_clone_path package_name) ;;
  ret ().

(** The body of the loop of [build_all]. *)
Definition build_repo (repo : string) : M unit :=
  '(repo_owner, package_name) <-
    lift (unpack2 (repo_owner_and_package_name_from_repo repo)) ;;
  b <- get_self ;;
  let git_clone_path := joinpath (clone_dir b) package_name in
  _build_and_copy_wheels git_clone_path.

Definition build_all : M unit :=
  b <- get_self ;;
  for_each (repos b) build_repo.

(** The body of the loop of [_create_index]. *)
Definition write_index_entry (out_file : fd) (package_name filename : string)
  : M unit :=
  let filename_split := split "-" filename in
  whl_package <- lift (index filename_split 0) ;;
  whl_version <- lift (index filename_split 1) ;;
  if String.eqb whl_package package_name
  then write out_file (index_line filename whl_version)
  else ret ().

Definition _create_index (package_name : string) : M unit :=
  let package_path := package_path_from_package_name package_name in
  with_open_w (str (joinpath package_path "index.html")) (λ out_file,
    write out_file html_header ;;
    filenames <- glob_whl package_path ;;
    for_each (sorted filenames) (write_index_entry out_file package_name) ;;
    write out_file html_footer).

Definition create_indices : M unit :=
  with_open_w (str (joinpath pypi_root_directory "index.html")) (λ out_file,
    write out_file html_header ;;
    b <- get_self ;;
    for_each (package_names b) (λ package_name,
      _create_index package_name ;;
      write out_file (root_line package_name)) ;;
    write out_file html_footer).

(** The builder before [__init__] has set any of its fields. *)
Definition blank : builder := Builder (CList []) (parse EmptyString) [] ∅ ∅.

(** [main]; [args_config] is the value of the [--config] option when it is
    given. *)
Definition main (args_config : option string) : M unit :=
  let config_file_path := parse (default "./config.yaml" args_config) in
  present <- ask (os_is_file (str config_file_path)) ;;
  config <- (if present
             then call (os_load_yaml (str config_file_path))
                    (λ _, EvLoadYaml (str config_file_path))
             else ret ∅) ;;
  __init__ config ;;
  clone_repos ;;
  build_all ;;
  create_indices.

End Program.

Arguments state World : clear implicits.
Arguments M World A : clear implicits.

(* ===================================================================== *)
(** * An operating system in memory *)
(* ===================================================================== *)

(** A small world for running the program on concrete inputs: directories
    with the names of their entries, the text that [git tag] prints, and a
    counter for file handles.  Sub-processes succeed and change nothing;
    there is no configuration file. *)
Module Fake.

Record world : Type := World {
  dirs : gmap string (list string);
  git_tag_output : string;
  next_fd : fd
}.

Definition is_dir (p : string) (w : world) : bool :=
  bool_decide (is_Some (dirs w !! p)).

Definition makedirs (p : string) (w : world) : result unit * world :=
  (Ok (), World (<[p := default [] (dirs w !! p)]> (dirs w))
            (git_tag_output w) (next_fd w)).

Definition rmtree (p : string) (w : world) : result unit * world :=
  (Ok (), World (delete p (dirs w)) (git_tag_output w) (next_fd w)).

Definition open_w (p : string) (w : world) : result fd * world :=
  (Ok (next_fd w), World (dirs w) (git_tag_output w) (S (next_fd w))).

#[global] Instance os : OS world := {|
  os_listdir p w := default [] (dirs w !! p);
  os_is_dir := is_dir;
  os_is_file _ _ := false;
  os_exists := is_dir;
  os_makedirs := makedirs;
  os_rmtree := rmtree;
  os_run _ _ w := (Ok (), w);
  os_check_output _ _ w := (Ok (git_tag_output w), w);
  os_open_w := open_w;
  os_write _ _ w := (Ok (), w);
  os_close _ w := (Ok (), w);
  os_load_yaml _ w := (Raise OSError, w)
|}.

(** The index directory of package [foo] holds one wheel, and the
    repository has two tags. *)
Definition foo_world : world :=
  World {[ "simple/foo" := ["foo-1.2.3-py3-none-any.whl"] ]}
        ("v1.2.3" +:+ newline +:+ "v1.3.0" +:+ newline) 3.

Definition foo_config : gmap string cfg_value :=
  {[ "repos" := CList ["owner/foo"]; "clone_dir" := CStr "clones" ]}.

(** The builder of that run when [__init__] reaches the scan. *)
Definition foo_fresh_builder : builder :=
  Builder (CList ["owner/foo"]) (parse "clones") ["foo"] ∅ ∅.

(** The builder of that run once [__init__] has returned. *)
Definition foo_builder : builder :=
  Builder (CList ["owner/foo"]) (parse "clones") ["foo"]
    {[ "foo" := ["1.2.3"; "v1.2.3"] ]} ∅.

Definition foo_fresh_state : state world := State foo_fresh_builder foo_world [].

Definition foo_state : state world := State foo_builder foo_world [].

(** The tags of the repository. *)
Definition foo_tags : list string := ["v1.2.3"; "v1.3.0"].

End Fake.

(** The in-memory world with a configuration file that lists no
    repository. *)
Module NoRepos.

Definition config : gmap string cfg_value :=
  {[ "repos" := CList []; "clone_dir" := CStr "clones" ]}.

Definition os : OS Fake.world := {|
  os_listdir p w := default [] (Fake.dirs w !! p);
  os_is_dir := Fake.is_dir;
  os_is_file _ _ := true;
  os_exists := Fake.is_dir;
  os_makedirs := Fake.makedirs;
  os_rmtree := Fake.rmtree;
  os_run _ _ w := (Ok (), w);
  os_check_output _ _ w := (Ok (Fake.git_tag_output w), w);
  os_open_w := Fake.open_w;
  os_write _ _ w := (Ok (), w);
  os_close _ w := (Ok (), w);
  os_load_yaml _ w := (Ok config, w)
|}.

End NoRepos.

(** A builder with a package whose name holds a dash, before the scan, in
    a world that holds a wheel built for it. *)
Definition dashed_state : state Fake.world :=
  State (Builder (CList ["owner/my-pkg"]) (parse "clones") ["my-pkg"] ∅ ∅)
    (Fake.World {[ "simple/my-pkg" := ["my_pkg-1.0-py3-none-any.whl"] ]}
       EmptyString 3)
    [].

(** A builder whose second repository has no owner. *)
Definition three_repos_state : state Fake.world :=
  State (Builder (CList ["owner/foo"; "bar"; "owner/baz"]) (parse "clones")
           ["foo"; "bar"; "baz"]
           {[ "foo" := ["1.2.3"; "v1.2.3"]; "bar" := []; "baz" := [] ]} ∅)
    Fake.foo_world [].

(** ** Notions the statements use *)

(** The number of occurrences of a character in a string. *)
Fixpoint count_char (c : ascii) (s : string) : nat :=
  match s with
  | EmptyString => 0
  | String c' s' => (if Ascii.eqb c' c then 1 else 0) + count_char c s'
  end.

(** A malformed artifact name: fewer than two fields between dashes, or an
    empty version field. *)
Definition malformed (filename : string) : bool :=
  match split "-" filename with
  | _ :: whl_version :: _ => String.eqb whl_version EmptyString
  | _ => true
  end.

(** An artifact name on which the scan of package [package_name] stops:
    there is no second field, or the first field is the package name and
    the second is empty. *)
Definition stops_scan (package_name filename : string) : Prop :=
  split "-" filename !! 1 = None ∨
  (split "-" filename !! 0 = Some package_name ∧
   split "-" filename !! 1 = Some EmptyString).

#[global] Instance stops_scan_dec pkg f : Decision (stops_scan pkg f).
Proof. unfold stops_scan. apply _. Defined.

(** The versions that an artifact name adds to the existing versions of
    package [package_name]: its version field and, when that starts with a
    digit, the alias with the letter v in front; nothing when the first
    field is not the package name. *)
Definition registers (package_name filename : string) : list string :=
  match split "-" filename with
  | whl_package :: whl_version :: _ =>
      if String.eqb whl_package package_name then
        whl_version ::
        match whl_version with
        | String c _ => if isdigit c then ["v" +:+ whl_version] else []
        | EmptyString => []
        end
      else []
  | _ => []
  end.

(** The anchor element of an index entry. *)
Definition anchor (filename whl_version : string) : string :=
  "<a href=" +:+ dquote +:+ filename +:+ dquote +:+ ">v" +:+ whl_version
    +:+ "</a>".

(** The first field of an artifact name is the package name. *)
Definition first_field_is (package_name filename : string) : Prop :=
  split "-" filename !! 0 = Some package_name.

#[global] Instance first_field_is_dec pkg f : Decision (first_field_is pkg f).
Proof. unfold first_field_is. apply _. Defined.

(** [line] is the index entry of the artifact name [filename]: the anchor
    with the name and its version field, indented, with a line break. *)
Definition entry_of (filename line : string) : Prop :=
  ∃ whl_version,
    split "-" filename !! 1 = Some whl_version
    ∧ line = "    " +:+ anchor filename whl_version +:+ "<br>" +:+ newline.

(** The path of the index page of a package. *)
Definition index_path (package_name : string) : string :=
  str (joinpath (package_path_from_package_name package_name) "index.html").

(** The builders that differ at most in the needed versions of the
    packages that satisfy [touched]. *)
Definition same_but_needed (touched : string → Prop) : relation builder :=
  λ b b',
    repos b' = repos b
    ∧ clone_dir b' = clone_dir b
    ∧ package_names b' = package_names b
    ∧ existing_versions b' = existing_versions b
    ∧ ∀ pkg, ¬ touched pkg →
        needed_versions b' !! pkg = needed_versions b !! pkg.

#[global] Instance same_but_needed_refl touched :
  Reflexive (same_but_needed touched).
Proof. intros b. by repeat split. Qed.

#[global] Instance same_but_needed_trans touched :
  Transitive (same_but_needed touched).
Proof.
  intros b1 b2 b3 (H1 & H2 & H3 & H4 & H5) (K1 & K2 & K3 & K4 & K5).
  repeat split; try congruence.
  intros pkg Hp. by rewrite K5, H5.
Qed.

(** The path of the root index page. *)
Definition root_index_path : string :=
  str (joinpath pypi_root_directory "index.html").

(** [evs] is what a run of [_create_index] that returned has logged for
    package [pkg]. *)
Definition page_events `{OS World} (pkg : string) (evs : list event) : Prop :=
  ∃ s s' : state World,
    _create_index pkg s = (Ok (), s') ∧ log s' = log s ++ evs.

(** What [create_indices] logs between the header and the footer of the
    root page: for each package the events of its page, then the write of
    its line to the root page. *)
Definition root_body (out_file : fd) (pkgs : list string)
    (pages : list (list event)) : list event :=
  concat (zip_with (λ pkg evs, evs ++ [EvWrite out_file (root_line pkg)])
            pkgs pages).

(** No character of the string is a digit. *)
Fixpoint no_digit (s : string) : bool :=
  match s with
  | EmptyString => true
  | String c s' => negb (isdigit c) && no_digit s'
  end.

(** The source path of the copy at the end of the build of a version, for
    the value [i] of [index] (line 118). *)
Definition built_wheel (git_clone_path : path) (package_name version : string)
    (i : nat) : path :=
  joinpath git_clone_path
    ("dist/" +:+ replace_char "-" "_" package_name +:+ "-"
       +:+ str_from i version +:+ "-py3-none-any.whl").

(** The file name of the wheel of a package for a version text. *)
Definition wheel_name (package_name version_text : string) : string :=
  package_name +:+ "-" +:+ version_text +:+ "-py3-none-any.whl".

(** No character of the string ends a line. *)
Fixpoint no_linebreak (s : string) : bool :=
  match s with
  | EmptyString => true
  | String c s' => negb (is_linebreak c) && no_linebreak s'
  end.

(** The text that prints each of the lines followed by a line feed. *)
Fixpoint unlines (lines : list string) : string :=
  match lines with
  | [] => EmptyString
  | line :: lines' => line +:+ newline +:+ unlines lines'
  end.

(** The builder after [self.__existing_versions[pkg] = ex]. *)
Definition with_existing (b : builder) (pkg : string) (ex : list string)
  : builder :=
  Builder (__repos b) (__clone_dir b) (__package_names b)
    (<[pkg := ex]> (__existing_versions b)) (__needed_versions b).

(** The artifact names of a package in world [w]: what the glob of its
    directory yields. *)
Definition wheels_of `{OS World} (w : World) (package_name : string)
  : list string :=
  List.filter (endswith ".whl")
    (os_listdir (str (package_path_from_package_name package_name)) w).

(** What the scan of one package directory computes in world [w]. *)
Definition scan_package `{OS World} (w : World) (package_name : string)
  : result (list string) :=
  scan_wheels package_name (wheels_of w package_name) [].

(* ===================================================================== *)
(** * Properties *)
(* ===================================================================== *)

(** ** The built-ins *)

Lemma split_not_nil sep s : split sep s ≠ [].
Proof.
  destruct s as [|c s]; simpl; [done|].
  destruct (Ascii.eqb c sep); [done|].
  by destruct (split sep s).
Qed.

Lemma split_length sep s : length (split sep s) = S (count_char sep s).
Proof.
  induction s as [|c s IH]; simpl; [done|].
  destruct (Ascii.eqb c sep); simpl; [by rewrite IH|].
  pose proof (split_not_nil sep s).
  destruct (split sep s); [done|]. simpl in *. lia.
Qed.

Lemma contains_true t x : contains t x = true ↔ x ∈ t.
Proof.
  unfold contains. rewrite existsb_exists. split.
  - intros (y & Hy & Heq). apply String.eqb_eq in Heq. subst.
    by apply list_elem_of_In.
  - intros Hx. exists x. split; [by apply list_elem_of_In|].
    apply String.eqb_refl.
Qed.

Lemma contains_false t x : contains t x = false ↔ x ∉ t.
Proof.
  rewrite <- contains_true. destruct (contains t x); split; congruence.
Qed.

Lemma unpack2_split_raise repo :
  count_char "/" repo ≠ 1 →
  unpack2 (split "/" repo) = Raise ValueError.
Proof.
  intros Hc. pose proof (split_length "/" repo) as Hl.
  destruct (split "/" repo) as [|a [|b [|c l]]]; simpl in *; try done.
  lia.
Qed.

(** ** Reconciliation *)

Lemma needed_comprehension_filter em pkg ex (tags : list string) :
  em !! pkg = Some ex →
  needed_comprehension em pkg tags
  = Ok (filter (λ t, t ∉ ex) tags, length tags).
Proof.
  intros Hex. induction tags as [|t tags IH]; simpl; [done|].
  unfold getitem. rewrite Hex. simpl. rewrite IH. simpl.
  destruct (contains ex t) eqn:Hc.
  - apply contains_true in Hc. by rewrite filter_cons_False by (intros Hn; by apply Hn).
  - apply contains_false in Hc. by rewrite filter_cons_True.
Qed.

Section Reconciliation.

Context {World : Type} `{!OS World}.

Lemma reconcile_ok (st : state World) pkg ex tags :
  existing_versions (self st) !! pkg = Some ex →
  reconcile pkg tags st
  = (Ok (),
     State (Builder (__repos (self st)) (__clone_dir (self st))
              (__package_names (self st)) (__existing_versions (self st))
              (<[pkg := filter (λ t, t ∉ ex) tags]> (__needed_versions (self st))))
       (world st) (log st)).
Proof.
  intros Hex. unfold reconcile, bind, get_self, lift.
  by rewrite (needed_comprehension_filter _ _ _ _ Hex).
Qed.

(** C1. For a package with existing versions [ex], the comprehension makes
    one membership test for each tag and returns the tags that are not in
    [ex], in the order of the tag list: it is the filter of the tag list,
    a sublist of it, with exactly the absent tags as members; and line 92
    stores this list as the package's needed versions, changing nothing
    else. *)
Theorem needed_is_ordered_difference (st : state World) pkg ex (tags : list string) :
  existing_versions (self st) !! pkg = Some ex →
  needed_comprehension (existing_versions (self st)) pkg tags
  = Ok (filter (λ t, t ∉ ex) tags, length tags)
  ∧ filter (λ t, t ∉ ex) tags `sublist_of` tags
  ∧ (∀ t, t ∈ filter (λ t, t ∉ ex) tags ↔ t ∈ tags ∧ t ∉ ex)
  ∧ ∃ st', reconcile pkg tags st = (Ok (), st')
      ∧ needed_versions (self st') !! pkg = Some (filter (λ t, t ∉ ex) tags)
      ∧ existing_versions (self st') = existing_versions (self st)
      ∧ world st' = world st ∧ log st' = log st.
Proof.
  intros Hex. split; [by apply needed_comprehension_filter|].
  split; [apply sublist_filter|].
  split; [intros t; rewrite list_elem_of_filter; tauto|].
  eexists. split; [by apply reconcile_ok|]. simpl.
  split; [apply lookup_insert_eq|done].
Qed.

(** C2. The needed versions are among the tags, and none of them is an
    existing version. *)
Theorem needed_subset_and_disjoint (em : gmap string (list string)) pkg ex
    (tags : list string) :
  em !! pkg = Some ex →
  ∃ needed tests,
    needed_comprehension em pkg tags = Ok (needed, tests)
    ∧ needed ⊆ tags
    ∧ Forall (λ v, v ∉ ex) needed.
Proof.
  intros Hex. exists (filter (λ t, t ∉ ex) tags), (length tags).
  split; [by apply needed_comprehension_filter|].
  split.
  - intros t. rewrite list_elem_of_filter. tauto.
  - apply Forall_forall. intros t. rewrite list_elem_of_filter. tauto.
Qed.

Lemma needed_comprehension_covered (em : gmap string (list string)) pkg ex
    (tags : list string) :
  em !! pkg = Some ex →
  tags ⊆ ex →
  needed_comprehension em pkg tags = Ok ([], length tags).
Proof.
  intros Hex Hsub. rewrite (needed_comprehension_filter _ _ _ _ Hex).
  do 2 f_equal. induction tags as [|t tags IH]; [done|].
  rewrite filter_cons_False.
  - apply IH. intros x Hx. apply Hsub. by right.
  - intros Hn. apply Hn, Hsub. by left.
Qed.

(** C5. Line 92 is idempotent: run again on the state it produced, with
    the same tags, it produces that state again, so the needed list is the
    same; and once the existing versions of the package contain the old
    ones and every needed version, the needed list is empty. *)
Theorem reconcile_idempotent (st : state World) pkg ex (tags : list string) :
  existing_versions (self st) !! pkg = Some ex →
  ∃ needed st1,
    reconcile pkg tags st = (Ok (), st1)
    ∧ needed_versions (self st1) !! pkg = Some needed
    ∧ reconcile pkg tags st1 = (Ok (), st1)
    ∧ needed_comprehension (<[pkg := ex ++ needed]> (existing_versions (self st)))
        pkg tags = Ok ([], length tags)
    ∧ ∀ ex', ex ⊆ ex' → needed ⊆ ex' →
        needed_comprehension (<[pkg := ex']> (existing_versions (self st)))
          pkg tags = Ok ([], length tags).
Proof.
  intros Hex.
  assert (Hgen : ∀ ex', ex ⊆ ex' → filter (λ t, t ∉ ex) tags ⊆ ex' →
    needed_comprehension (<[pkg := ex']> (existing_versions (self st)))
      pkg tags = Ok ([], length tags)).
  { intros ex' H1 H2.
    apply needed_comprehension_covered with (ex := ex');
      [apply lookup_insert_eq|].
    intros t Ht. destruct (decide (t ∈ ex)) as [Hin|Hout]; [by apply H1|].
    apply H2, list_elem_of_filter. done. }
  eexists _, _. split; [by apply reconcile_ok|]. simpl.
  split; [apply lookup_insert_eq|].
  split.
  - rewrite (reconcile_ok _ pkg ex tags) by done. simpl.
    by rewrite insert_insert_eq.
  - split; [|done].
    apply Hgen; intros t Ht; apply elem_of_app; auto.
Qed.

(** C6. When no tag is an existing version, every tag is needed, in the
    order of the tag list. *)
Theorem disjoint_needs_all_tags (em : gmap string (list string)) pkg ex
    (tags : list string) :
  em !! pkg = Some ex →
  (∀ t, t ∈ tags → t ∉ ex) →
  needed_comprehension em pkg tags = Ok (tags, length tags).
Proof.
  intros Hex Hdisj. rewrite (needed_comprehension_filter _ _ _ _ Hex).
  do 2 f_equal. induction tags as [|t tags IH]; [done|].
  rewrite filter_cons_True by (apply Hdisj; by left).
  f_equal. apply IH. intros x Hx. apply Hdisj. by right.
Qed.

End Reconciliation.

(** ** The scan of the artifact names *)

Lemma scan_wheels_stop pkg f rest acc :
  stops_scan pkg f → scan_wheels pkg (f :: rest) acc = Raise IndexError.
Proof.
  unfold stops_scan. simpl. unfold index.
  pose proof (split_not_nil "-" f) as Hne.
  destruct (split "-" f) as [|p [|v l]]; [done| |]; simpl.
  - done.
  - intros [?|[Hp Hv]]; [done|]. simplify_eq.
    by rewrite String.eqb_refl.
Qed.

Lemma scan_wheels_continue pkg f rest acc :
  ¬ stops_scan pkg f →
  scan_wheels pkg (f :: rest) acc = scan_wheels pkg rest (acc ++ registers pkg f).
Proof.
  unfold stops_scan, registers. simpl. unfold index.
  destruct (split "-" f) as [|p [|v l]]; simpl.
  - intros Hn. destruct Hn. by left.
  - intros Hn. destruct Hn. by left.
  - intros Hn. destruct (String.eqb_spec p pkg) as [->|Hne]; simpl.
    + destruct v as [|c v]; simpl.
      * destruct Hn. by right.
      * destruct (isdigit c); [|done]. by rewrite <- app_assoc.
    + by rewrite app_nil_r.
Qed.

Lemma scan_wheels_raises pkg files acc :
  Exists (stops_scan pkg) files → scan_wheels pkg files acc = Raise IndexError.
Proof.
  revert acc. induction files as [|f files IH]; intros acc Hex.
  - by apply Exists_nil in Hex.
  - destruct (decide (stops_scan pkg f)) as [Hs|Hs].
    + by apply scan_wheels_stop.
    + rewrite scan_wheels_continue by done. apply IH.
      apply Exists_cons in Hex as [?|?]; done.
Qed.

Lemma scan_wheels_returns pkg files acc :
  Forall (λ f, ¬ stops_scan pkg f) files →
  scan_wheels pkg files acc = Ok (acc ++ (files ≫= registers pkg)).
Proof.
  revert acc. induction files as [|f files IH]; intros acc Hall.
  - simpl. by rewrite app_nil_r.
  - apply Forall_cons in Hall as [Hf Hall].
    rewrite scan_wheels_continue by done. rewrite IH by done.
    rewrite bind_cons. by rewrite app_assoc.
Qed.

Lemma scan_wheels_cases pkg files acc :
  (Exists (stops_scan pkg) files
   ∧ scan_wheels pkg files acc = Raise IndexError)
  ∨ (Forall (λ f, ¬ stops_scan pkg f) files
     ∧ scan_wheels pkg files acc = Ok (acc ++ (files ≫= registers pkg))).
Proof.
  destruct (decide (Exists (stops_scan pkg) files)) as [Hex|Hnex].
  - left. split; [done|]. by apply scan_wheels_raises.
  - right. apply not_Exists_Forall in Hnex; [|apply _].
    split; [done|]. by apply scan_wheels_returns.
Qed.

Section Scan.

Context {World : Type} `{!OS World}.

Lemma detect_existing_package_eq pkg (st : state World) :
  detect_existing_package pkg st
  = match scan_package (world st) pkg with
    | Ok ex => (Ok (), State (with_existing (self st) pkg ex) (world st) (log st))
    | Raise e => (Raise e, st)
    end.
Proof.
  unfold detect_existing_package, scan_package, wheels_of, bind, glob_whl,
    ask, lift, set_existing_versions, get_self, set_self. simpl.
  by destruct (scan_wheels _ _ _).
Qed.

Lemma detect_loop_inv (l : list string) (st st' : state World) :
  for_each l detect_existing_package st = (Ok (), st') →
  world st' = world st ∧ log st' = log st
  ∧ (__repos (self st'), __clone_dir (self st'), __package_names (self st'),
     __needed_versions (self st'))
    = (__repos (self st), __clone_dir (self st), __package_names (self st),
       __needed_versions (self st))
  ∧ (∀ pkg, pkg ∈ l →
       ∃ ex, scan_package (world st) pkg = Ok ex
             ∧ existing_versions (self st') !! pkg = Some ex)
  ∧ (∀ pkg, pkg ∉ l →
       existing_versions (self st') !! pkg = existing_versions (self st) !! pkg).
Proof.
  revert st. induction l as [|p l IH]; intros st; simpl.
  - unfold ret. intros [= <-]. repeat split; try done.
    intros pkg Hin. by apply elem_of_nil in Hin.
  - unfold bind at 1. rewrite detect_existing_package_eq.
    destruct (scan_package (world st) p) as [ex|e] eqn:Hscan; [|done].
    intros Hrest. apply IH in Hrest as (Hw & Hl & Hn & Hin & Hout).
    simpl in *. repeat split; try done.
    + intros pkg Hpkg. destruct (decide (pkg ∈ l)) as [Hl'|Hl'].
      * destruct (Hin pkg Hl') as (ex' & ? & ?). eauto.
      * apply elem_of_cons in Hpkg as [->|?]; [|done].
        exists ex. split; [done|]. rewrite (Hout p Hl').
        apply lookup_insert_eq.
    + intros pkg Hpkg. apply not_elem_of_cons in Hpkg as [Hne Hnl].
      rewrite (Hout pkg Hnl). by apply lookup_insert_ne.
Qed.

Lemma registers_match pkg f v :
  split "-" f !! 0 = Some pkg →
  split "-" f !! 1 = Some v →
  registers pkg f
  = v :: match v with
         | String c _ => if isdigit c then ["v" +:+ v] else []
         | EmptyString => []
         end.
Proof.
  unfold registers.
  destruct (split "-" f) as [|p [|v' l]]; simpl; try done.
  intros [= ->] [= ->]. by rewrite String.eqb_refl.
Qed.

(** What a scan that returned has stored for a package of the builder. *)
Lemma detect_existing_entry (st st' : state World) pkg :
  _detect_existing st = (Ok (), st') →
  pkg ∈ package_names (self st) →
  Forall (λ f, ¬ stops_scan pkg f) (wheels_of (world st) pkg)
  ∧ existing_versions (self st') !! pkg
    = Some (wheels_of (world st) pkg ≫= registers pkg).
Proof.
  unfold _detect_existing, bind, get_self. intros Hrun Hpkg.
  apply detect_loop_inv in Hrun as (_ & _ & _ & Hin & _).
  destruct (Hin pkg Hpkg) as (ex & Hscan & Hex).
  unfold scan_package in Hscan.
  destruct (scan_wheels_cases pkg (wheels_of (world st) pkg) [])
    as [[_ Hr]|[Hall Hr]]; [congruence|].
  rewrite Hscan in Hr. injection Hr as ->. done.
Qed.

(** C3. After a scan that returned, every package of the builder has an
    entry of existing versions.  Every artifact name of the package's
    directory has a second field, its version; when the first field is the
    package name, the version is in the entry, and so is the version with
    the letter v in front when its first character is a digit.  The entry
    holds nothing else. *)
Theorem scan_registers_version_and_alias (st st' : state World) pkg :
  _detect_existing st = (Ok (), st') →
  pkg ∈ package_names (self st) →
  ∃ ex,
    existing_versions (self st') !! pkg = Some ex
    ∧ (∀ filename, filename ∈ wheels_of (world st) pkg →
         ∃ whl_version,
           split "-" filename !! 1 = Some whl_version
           ∧ (split "-" filename !! 0 = Some pkg →
                whl_version ∈ ex
                ∧ ∀ c, str_index0 whl_version = Ok c → isdigit c = true →
                    ("v" +:+ whl_version) ∈ ex))
    ∧ (∀ v, v ∈ ex ↔
         ∃ filename, filename ∈ wheels_of (world st) pkg
                     ∧ v ∈ registers pkg filename).
Proof.
  intros Hrun Hpkg.
  destruct (detect_existing_entry st st' pkg Hrun Hpkg) as [Hall Hex].
  eexists. split; [exact Hex|]. split.
  - intros f Hf. rewrite Forall_forall in Hall. specialize (Hall f Hf).
    destruct (split "-" f !! 1) as [v|] eqn:Hv.
    + exists v. split; [done|]. intros Hp.
      pose proof (registers_match pkg f v Hp Hv) as Hreg.
      split.
      * apply list_elem_of_bind. exists f. split; [|done].
        rewrite Hreg. by left.
      * intros c Hc Hd. apply list_elem_of_bind. exists f. split; [|done].
        rewrite Hreg. destruct v as [|c' v]; [done|].
        injection Hc as ->. rewrite Hd. right. by left.
    + destruct Hall. by left.
  - intros v. rewrite list_elem_of_bind.
    split; intros (f & ? & ?); by exists f.
Qed.

(** The invariant of the data model: a version that the scan registered
    for a package, raw or with the letter v in front, is never among the
    needed versions that line 92 computes for it. *)
Lemma registered_versions_are_not_needed (st st' : state World) pkg
    (tags : list string) filename v :
  _detect_existing st = (Ok (), st') →
  pkg ∈ package_names (self st) →
  filename ∈ wheels_of (world st) pkg →
  v ∈ registers pkg filename →
  ∃ needed tests,
    needed_comprehension (existing_versions (self st')) pkg tags
    = Ok (needed, tests)
    ∧ v ∉ needed.
Proof.
  intros Hrun Hpkg Hf Hv.
  destruct (detect_existing_entry st st' pkg Hrun Hpkg) as [_ Hex].
  eexists _, _. split; [by apply needed_comprehension_filter|].
  rewrite list_elem_of_filter. intros [Hnot _]. apply Hnot.
  apply list_elem_of_bind. by exists filename.
Qed.

End Scan.

Lemma malformed_foreign_registers_nothing pkg f :
  malformed f = true → ¬ stops_scan pkg f → registers pkg f = [].
Proof.
  unfold malformed, stops_scan, registers.
  destruct (split "-" f) as [|p [|v l]]; simpl; intros Hm Hs.
  - destruct Hs. by left.
  - destruct Hs. by left.
  - apply String.eqb_eq in Hm as ->.
    destruct (String.eqb_spec p pkg) as [->|Hne]; [|done].
    destruct Hs. by right.
Qed.

(** C8, as the code has it. The scan of the artifact names of a package
    raises [IndexError], and nothing else, exactly when some name has no
    second field or has the package name as first field and an empty
    second field; otherwise it returns, and a name with an empty second
    field and another first field adds nothing. *)
Theorem scan_raises_exactly_on_stops pkg (files : list string) :
  (scan_wheels pkg files [] = Raise IndexError ↔ Exists (stops_scan pkg) files)
  ∧ (∀ e, scan_wheels pkg files [] = Raise e → e = IndexError)
  ∧ (is_ok (scan_wheels pkg files []) = true ↔
       Forall (λ f, ¬ stops_scan pkg f) files)
  ∧ (∀ f, malformed f = true → ¬ stops_scan pkg f → registers pkg f = []).
Proof.
  assert (Hexcl : Exists (stops_scan pkg) files →
                  Forall (λ f, ¬ stops_scan pkg f) files → False).
  { intros Hex Hall. apply Exists_exists in Hex as (f & Hf & Hs).
    rewrite Forall_forall in Hall. by apply (Hall f). }
  destruct (scan_wheels_cases pkg files []) as [[Hex Hr]|[Hall Hr]];
    rewrite Hr; simpl.
  - split; [done|]. split; [congruence|].
    split; [|apply malformed_foreign_registers_nothing].
    split; [done|]. intros Hall. destruct (Hexcl Hex Hall).
  - split; [|split; [done|]].
    + split; [done|]. intros Hex. destruct (Hexcl Hex Hall).
    + split; [done|]. apply malformed_foreign_registers_nothing.
Qed.

(** C8, as the specification has it, fails: the scan of package [foo]
    returns on a directory whose only artifact name has an empty version
    field, and registers nothing for it. *)
Lemma malformed_name_is_skipped :
  ¬ (∀ pkg (files : list string),
       Exists (λ f, malformed f = true) files →
       is_ok (scan_wheels pkg files []) = false).
Proof.
  intros Hclaim.
  specialize (Hclaim "foo" ["bar--py3-none-any.whl"]).
  assert (Hm : Exists (λ f, malformed f = true) ["bar--py3-none-any.whl"])
    by (by left).
  apply Hclaim in Hm. vm_compute in Hm. discriminate.
Qed.

Lemma scan_raises_exactly_on_stops_witness :
  scan_wheels "foo" ["foo.whl"; "foo-1.0-py3-none-any.whl"] []
  = Raise IndexError.
Proof.
  apply (scan_raises_exactly_on_stops "foo"
           ["foo.whl"; "foo-1.0-py3-none-any.whl"]).
  left. by left.
Defined.

(** ** The pipeline *)

Section Pipeline.

Context {World : Type} `{!OS World}.

Lemma bind_ok_inv {A B} (m : M World A) (k : A → M World B) st st' b :
  bind m k st = (Ok b, st') →
  ∃ a st1, m st = (Ok a, st1) ∧ k a st1 = (Ok b, st').
Proof.
  unfold bind. destruct (m st) as [[a|e] st1]; [eauto|done].
Qed.

(** A loop whose body raises at some element does not return. *)
Lemma for_each_raises {A} (l : list A) (body : A → M World unit) x :
  x ∈ l →
  (∀ st, is_ok (body x st).1 = false) →
  ∀ st, is_ok (for_each l body st).1 = false.
Proof.
  intros Hx Hbody. induction l as [|y l IH]; intros st.
  - by apply elem_of_nil in Hx.
  - simpl. unfold bind.
    destruct (body y st) as [[[]|e] st1] eqn:Hy; [|done].
    apply elem_of_cons in Hx as [->|Hx]; [|by apply IH].
    specialize (Hbody st). by rewrite Hy in Hbody.
Qed.

Lemma package_name_from_repo_total repo :
  ∃ package_name, package_name_from_repo repo = Ok package_name.
Proof.
  unfold package_name_from_repo, index_last.
  destruct (last (split "/" repo)) as [n|] eqn:Hl; [by exists n|].
  apply last_None in Hl. by apply split_not_nil in Hl.
Qed.

Lemma _clone_repo_unpack_raises repo (st : state World) :
  count_char "/" repo ≠ 1 → _clone_repo repo st = (Raise ValueError, st).
Proof.
  intros Hc. unfold _clone_repo, bind, lift,
    repo_owner_and_package_name_from_repo.
  by rewrite unpack2_split_raise.
Qed.

Lemma build_repo_unpack_raises repo (st : state World) :
  count_char "/" repo ≠ 1 → build_repo repo st = (Raise ValueError, st).
Proof.
  intros Hc. unfold build_repo, bind, lift,
    repo_owner_and_package_name_from_repo.
  by rewrite unpack2_split_raise.
Qed.

(** C10. The package name is defined for every repository identifier.
    For an identifier that does not hold exactly one slash, [_clone_repo]
    and the body of [build_all] raise [ValueError] at the unpacking and
    leave the state as it was: no call to the operating system is logged
    and the builder is unchanged.  With such an identifier among the
    repositories, neither [clone_repos] nor [build_all] returns. *)
Theorem two_segments_are_a_precondition (st : state World) repo :
  count_char "/" repo ≠ 1 →
  (∃ package_name, package_name_from_repo repo = Ok package_name)
  ∧ _clone_repo repo st = (Raise ValueError, st)
  ∧ build_repo repo st = (Raise ValueError, st)
  ∧ (repo ∈ repos (self st) →
       is_ok (clone_repos st).1 = false ∧ is_ok (build_all st).1 = false).
Proof.
  intros Hc.
  split; [apply package_name_from_repo_total|].
  split; [by apply _clone_repo_unpack_raises|].
  split; [by apply build_repo_unpack_raises|].
  intros Hin. unfold clone_repos, build_all, bind, get_self. split.
  - apply for_each_raises with (x := repo); [done|].
    intros st0. by rewrite _clone_repo_unpack_raises.
  - apply for_each_raises with (x := repo); [done|].
    intros st0. by rewrite build_repo_unpack_raises.
Qed.

(** Calls to the operating system leave the builder alone. *)
Lemma call_self {A} (op : World → result A * World) ev (st st' : state World) r :
  call op ev st = (r, st') → self st' = self st.
Proof.
  unfold call. destruct (op (world st)) as [r' w]. by intros [= _ <-].
Qed.

Lemma for_each_self {A} (l : list A) (body : A → M World unit) :
  (∀ x st st' r, body x st = (r, st') → self st' = self st) →
  ∀ st st' r, for_each l body st = (r, st') → self st' = self st.
Proof.
  intros Hbody. induction l as [|x l IH]; intros st st' r; simpl.
  - unfold ret. by intros [= _ <-].
  - unfold bind. destruct (body x st) as [[[]|e] st1] eqn:Hx.
    + intros Hrest. apply IH in Hrest. apply Hbody in Hx. congruence.
    + intros [= _ <-]. by apply Hbody in Hx.
Qed.

Lemma _make_dirs_self (st st' : state World) r :
  _make_dirs st = (r, st') → self st' = self st.
Proof.
  unfold _make_dirs, makedirs, bind, get_self.
  destruct (call _ _ st) as [[[]|e] st1] eqn:H1;
    [|intros [= _ <-]; by apply call_self in H1].
  apply call_self in H1.
  destruct (for_each _ _ st1) as [[[]|e] st2] eqn:H2.
  - apply for_each_self in H2; [|intros x s s' r'; apply call_self].
    intros H3. apply call_self in H3. congruence.
  - apply for_each_self in H2; [|intros x s s' r'; apply call_self].
    intros [= _ <-]. congruence.
Qed.

(** When [__init__] returns, every package of the builder has an entry of
    existing versions, the one the scan of its directory computes, and no
    needed versions are recorded yet. *)
Lemma __init___registers_every_package config (st st' : state World) :
  __init__ config st = (Ok (), st') →
  needed_versions (self st') = ∅
  ∧ mapM package_name_from_repo (repos (self st'))
    = Ok (package_names (self st'))
  ∧ ∀ pkg, pkg ∈ package_names (self st') →
      ∃ ex, scan_package (world st') pkg = Ok ex
            ∧ existing_versions (self st') !! pkg = Some ex.
Proof.
  unfold __init__. intros Hrun.
  apply bind_ok_inv in Hrun as (r & st1 & Hr & Hrun).
  unfold lift in Hr. injection Hr as Hr <-.
  apply bind_ok_inv in Hrun as (b0 & st2 & [= <- <-] & Hrun).
  apply bind_ok_inv in Hrun as ([] & st3 & [= <-] & Hrun).
  apply bind_ok_inv in Hrun as (d & st4 & [= Hd <-] & Hrun).
  apply bind_ok_inv in Hrun as (p & st5 & [= Hp <-] & Hrun).
  apply bind_ok_inv in Hrun as (b1 & st6 & [= <- <-] & Hrun).
  apply bind_ok_inv in Hrun as ([] & st7 & [= <-] & Hrun).
  apply bind_ok_inv in Hrun as (b2 & st8 & [= <- <-] & Hrun).
  apply bind_ok_inv in Hrun as (names & st9 & [= Hnames <-] & Hrun).
  apply bind_ok_inv in Hrun as ([] & st10 & [= <-] & Hrun).
  apply bind_ok_inv in Hrun as ([] & st11 & Hdirs & Hrun).
  apply _make_dirs_self in Hdirs. simpl in Hdirs.
  unfold _detect_existing, bind, get_self in Hrun. rewrite Hdirs in Hrun.
  apply detect_loop_inv in Hrun as (Hw & _ & Hn & Hin & Hout).
  injection Hn as Hr' _ Hn Hnd.
  unfold needed_versions, repos, package_names. rewrite Hr', Hn, Hnd, Hdirs.
  simpl. split; [done|]. split; [done|].
  intros pkg Hpkg. rewrite Hw. by apply Hin.
Qed.

Lemma run_self cmd cwd (st st' : state World) r :
  run cmd cwd st = (r, st') → self st' = self st.
Proof. apply call_self. Qed.

Lemma _get_repo_tags_self p (st st' : state World) r :
  _get_repo_tags p st = (r, st') → self st' = self st.
Proof.
  unfold _get_repo_tags, bind.
  destruct (call _ _ st) as [[out|e] st1] eqn:Hcall;
    apply call_self in Hcall; unfold ret; by intros [= _ <-].
Qed.

(** When [_clone_repo] returns, the identifier had two segments, and the
    needed versions of the package named by the second are what line 92
    computes from the tags that [_get_repo_tags] returned and the existing
    versions the builder had. *)
Lemma _clone_repo_stores_needed repo (st st' : state World) :
  _clone_repo repo st = (Ok (), st') →
  ∃ repo_owner package_name st0 st1 tags,
    split "/" repo = [repo_owner; package_name]
    ∧ _get_repo_tags (joinpath (clone_dir (self st)) package_name) st0
      = (Ok tags, st1)
    ∧ self st1 = self st
    ∧ reconcile package_name tags st1 = (Ok (), st')
    ∧ ∀ ex, existing_versions (self st) !! package_name = Some ex →
        needed_versions (self st') !! package_name
        = Some (filter (λ t, t ∉ ex) tags).
Proof.
  unfold _clone_repo. intros Hrun.
  apply bind_ok_inv in Hrun as ([repo_owner package_name] & st1 & Hun & Hrun).
  unfold lift, repo_owner_and_package_name_from_repo in Hun.
  injection Hun as Hun <-.
  apply bind_ok_inv in Hrun as (b & st2 & [= <- <-] & Hrun).
  apply bind_ok_inv in Hrun as (is_git & st3 & [= _ <-] & Hrun).
  apply bind_ok_inv in Hrun as ([] & st4 & Hgit & Hrun).
  apply bind_ok_inv in Hrun as (tags & st5 & Htags & Hrun).
  assert (Hself4 : self st4 = self st).
  { destruct (negb is_git).
    - by apply run_self in Hgit.
    - apply bind_ok_inv in Hgit as ([] & sa & Ha & Hgit).
      apply bind_ok_inv in Hgit as ([] & sb & Hb & Hgit).
      apply run_self in Ha, Hb, Hgit. congruence. }
  exists repo_owner, package_name, st4, st5, tags.
  split.
  { destruct (split "/" repo) as [|a [|c [|d l]]]; simpl in Hun; congruence. }
  split; [done|].
  pose proof (_get_repo_tags_self _ _ _ _ Htags) as Hself5.
  split; [congruence|]. split; [done|].
  intros ex Hex. rewrite (reconcile_ok st5 package_name ex tags) in Hrun
    by (by rewrite Hself5, Hself4).
  injection Hrun as <-. simpl. apply lookup_insert_eq.
Qed.

(** With exactly one slash the unpacking succeeds. *)
Lemma one_slash_unpacks repo :
  count_char "/" repo = 1 →
  ∃ repo_owner package_name,
    unpack2 (repo_owner_and_package_name_from_repo repo)
    = Ok (repo_owner, package_name)
    ∧ package_name_from_repo repo = Ok package_name.
Proof.
  intros Hc. unfold repo_owner_and_package_name_from_repo,
    package_name_from_repo, index_last.
  pose proof (split_length "/" repo) as Hl. rewrite Hc in Hl.
  destruct (split "/" repo) as [|a [|b [|c l]]]; simpl in *; try lia.
  by exists a, b.
Qed.

(** C4, as the code has it. Without a configuration file, [main] passes
    the empty dictionary to [__init__], whose first statement raises
    [KeyError] for the key [repos]; nothing else has happened by then. *)
Theorem main_without_config_raises (args_config : option string)
    (st : state World) :
  os_is_file (str (parse (default "./config.yaml" args_config))) (world st)
  = false →
  main args_config st = (Raise (KeyError "repos"), st).
Proof.
  intros Hfile. unfold main, bind at 1, ask. rewrite Hfile.
  reflexivity.
Qed.

End Pipeline.

(** ** The index page of a package *)

Lemma append_assoc (a b c : string) : (a +:+ b) +:+ c = a +:+ b +:+ c.
Proof.
  induction a as [|x a IH]; [done|].
  change (String x ((a +:+ b) +:+ c) = String x (a +:+ b +:+ c)).
  by rewrite IH.
Qed.

Lemma index_line_anchor f v :
  index_line f v = "    " +:+ anchor f v +:+ "<br>" +:+ newline.
Proof.
  unfold index_line, anchor. by rewrite !append_assoc.
Qed.

Lemma insert_sorted_perm x l : insert_sorted x l ≡ₚ x :: l.
Proof.
  induction l as [|y l IH]; simpl; [done|].
  destruct (String.leb x y); [done|].
  rewrite IH. apply Permutation_swap.
Qed.

Lemma sorted_perm l : sorted l ≡ₚ l.
Proof.
  induction l as [|x l IH]; simpl; [done|].
  by rewrite insert_sorted_perm, IH.
Qed.

Lemma insert_sorted_strongly x l :
  StronglySorted String.le l → StronglySorted String.le (insert_sorted x l).
Proof.
  induction 1 as [|y l Hl IH Hy]; simpl.
  - by repeat constructor.
  - destruct (String.leb x y) eqn:Hxy.
    + assert (String.le x y) by (unfold String.le; by rewrite Hxy).
      constructor; [by constructor|].
      constructor; [done|].
      eapply Forall_impl; [exact Hy|].
      intros z Hz. by transitivity y.
    + constructor; [done|].
      rewrite insert_sorted_perm. constructor; [|done].
      destruct (total String.le x y) as [H1|H1]; [|done].
      unfold String.le in H1. by rewrite Hxy in H1.
Qed.

Lemma sorted_strongly l : StronglySorted String.le (sorted l).
Proof.
  induction l as [|x l IH]; simpl; [constructor|].
  by apply insert_sorted_strongly.
Qed.

Lemma StronglySorted_filter {A} (R : relation A) (P : A → Prop)
    `{!∀ x, Decision (P x)} (l : list A) :
  StronglySorted R l → StronglySorted R (filter P l).
Proof.
  induction 1 as [|x l Hl IH Hx]; [constructor|].
  destruct (decide (P x)).
  - rewrite filter_cons_True by done. constructor; [done|].
    rewrite Forall_forall in Hx. apply Forall_forall.
    intros y Hy. apply list_elem_of_filter in Hy as [_ Hy]. by apply Hx.
  - by rewrite filter_cons_False.
Qed.

Section Index.

Context {World : Type} `{!OS World}.

Lemma write_ok_inv out_file data (st st' : state World) :
  write out_file data st = (Ok (), st') →
  ∃ w, os_write out_file data (world st) = (Ok (), w)
       ∧ st' = State (self st) w (log st ++ [EvWrite out_file data]).
Proof.
  unfold write, call.
  destruct (os_write out_file data (world st)) as [[[]|e] w]; [|done].
  intros [= <-]. by exists w.
Qed.

Lemma with_open_w_ok_inv {A} path (body : fd → M World A) st st' a :
  with_open_w path body st = (Ok a, st') →
  ∃ out_file w1 st1 w2,
    os_open_w path (world st) = (Ok out_file, w1)
    ∧ body out_file (State (self st) w1 (log st ++ [EvOpen path out_file]))
      = (Ok a, st1)
    ∧ os_close out_file (world st1) = (Ok (), w2)
    ∧ st' = State (self st1) w2 (log st1 ++ [EvClose out_file]).
Proof.
  unfold with_open_w, bind, call.
  destruct (os_open_w path (world st)) as [[out_file|e] w1]; [|done].
  destruct (body out_file _) as [r st1] eqn:Hbody.
  destruct (os_close out_file (world st1)) as [[[]|e] w2] eqn:Hclose; [|done].
  intros [= -> <-]. by exists out_file, w1, st1, w2.
Qed.

Lemma write_index_entry_ok_inv out_file pkg f (st st' : state World) :
  write_index_entry out_file pkg f st = (Ok (), st') →
  ∃ v, split "-" f !! 1 = Some v
       ∧ ((first_field_is pkg f
           ∧ log st' = log st ++ [EvWrite out_file (index_line f v)])
          ∨ (¬ first_field_is pkg f ∧ st' = st)).
Proof.
  unfold write_index_entry, first_field_is, bind, lift, index.
  destruct (split "-" f) as [|p [|v l]]; simpl; try done.
  intros Hrun. exists v. split; [done|].
  destruct (String.eqb_spec p pkg) as [->|Hne].
  - left. split; [done|].
    apply write_ok_inv in Hrun as (w & _ & ->). done.
  - right. unfold ret in Hrun. split; [congruence|]. congruence.
Qed.

Lemma index_loop_inv out_file pkg (l : list string) (st st' : state World) :
  for_each l (write_index_entry out_file pkg) st = (Ok (), st') →
  ∃ lines,
    log st' = log st ++ (EvWrite out_file <$> lines)
    ∧ Forall2 (λ f line, ∃ v, split "-" f !! 1 = Some v ∧ line = index_line f v)
        (filter (first_field_is pkg) l) lines.
Proof.
  revert st. induction l as [|f l IH]; intros st; simpl.
  - unfold ret. intros [= <-]. exists []. simpl.
    split; [by rewrite app_nil_r|constructor].
  - intros Hrun. apply bind_ok_inv in Hrun as ([] & st1 & Hf & Hrest).
    apply IH in Hrest as (lines & Hlog & Hall).
    apply write_index_entry_ok_inv in Hf as (v & Hv & [[Hp Hl]|[Hp ->]]).
    + exists (index_line f v :: lines). rewrite filter_cons_True by done.
      split; [|constructor; eauto].
      rewrite Hlog, Hl, <- app_assoc. done.
    + exists lines. by rewrite filter_cons_False.
Qed.

(** C9. When [_create_index] returns, it has opened the index page of the
    package, written the header, one line for each listed file and the
    footer, and closed the page.  The listed files are the artifact names
    of the package's directory whose first field is the package name, in
    increasing order of name; the line of a file is the anchor with the
    file name as target and the letter v and the second field of the name
    as text. *)
Theorem create_index_lists_matching_artifacts pkg (st st' : state World) :
  _create_index pkg st = (Ok (), st') →
  ∃ out_file w1 w2 (listed lines : list string),
    os_open_w (index_path pkg) (world st) = (Ok out_file, w1)
    ∧ os_write out_file html_header w1 = (Ok (), w2)
    ∧ log st' = log st ++ [EvOpen (index_path pkg) out_file]
                ++ [EvWrite out_file html_header]
                ++ (EvWrite out_file <$> lines)
                ++ [EvWrite out_file html_footer]
                ++ [EvClose out_file]
    ∧ listed ≡ₚ filter (first_field_is pkg) (wheels_of w2 pkg)
    ∧ StronglySorted String.le listed
    ∧ Forall2 entry_of listed lines.
Proof.
  unfold _create_index. intros Hrun.
  apply with_open_w_ok_inv in Hrun
    as (out_file & w1 & st1 & w3 & Hopen & Hbody & _ & ->).
  apply bind_ok_inv in Hbody as ([] & st2 & Hhead & Hbody).
  apply write_ok_inv in Hhead as (w2 & Hhead & ->). simpl in Hhead.
  apply bind_ok_inv in Hbody as (filenames & st3 & Hglob & Hbody).
  unfold glob_whl, ask in Hglob. simpl in Hglob.
  injection Hglob as <- <-.
  apply bind_ok_inv in Hbody as ([] & st4 & Hloop & Hfoot).
  apply index_loop_inv in Hloop as (lines & Hlog & Hall). simpl in Hlog.
  apply write_ok_inv in Hfoot as (w4 & _ & ->).
  exists out_file, w1, w2,
    (filter (first_field_is pkg) (sorted (wheels_of w2 pkg))), lines.
  split; [done|]. split; [done|].
  split.
  { cbn [log]. rewrite Hlog. by rewrite <- !app_assoc. }
  split; [by rewrite sorted_perm|].
  split; [apply StronglySorted_filter, sorted_strongly|].
  eapply Forall2_impl; [exact Hall|].
  intros f line (v & Hv & ->). exists v. split; [done|].
  apply index_line_anchor.
Qed.

End Index.

(** ** A run in the world of package [foo] *)

(** C7. The artifact name [foo-1.2.3-py3-none-any.whl] registers the
    versions [1.2.3] and [v1.2.3] for package [foo]; against the tags
    [v1.2.3] and [v1.3.0] the needed list is [v1.3.0].  The same holds of
    a run: [__init__] finds these existing versions in the index directory
    of [foo], and [_clone_repo] stores that needed list. *)
Theorem alias_matching_example :
  scan_wheels "foo" ["foo-1.2.3-py3-none-any.whl"] [] = Ok ["1.2.3"; "v1.2.3"]
  ∧ needed_comprehension {[ "foo" := ["1.2.3"; "v1.2.3"] ]} "foo"
      ["v1.2.3"; "v1.3.0"] = Ok (["v1.3.0"], 2)
  ∧ ∃ st1 st2,
      __init__ Fake.foo_config (State blank Fake.foo_world []) = (Ok (), st1)
      ∧ existing_versions (self st1) = {[ "foo" := ["1.2.3"; "v1.2.3"] ]}
      ∧ _clone_repo "owner/foo" st1 = (Ok (), st2)
      ∧ needed_versions (self st2) = {[ "foo" := ["v1.3.0"] ]}.
Proof.
  split; [reflexivity|]. split; [reflexivity|].
  eexists _, _. split; [vm_compute; reflexivity|].
  split; [vm_compute; reflexivity|].
  split; [vm_compute; reflexivity|].
  vm_compute; reflexivity.
Qed.

(** ** The theorems at work *)

Lemma needed_is_ordered_difference_witness :
  needed_comprehension (existing_versions (self Fake.foo_state)) "foo" Fake.foo_tags
  = Ok (["v1.3.0"], 2).
Proof.
  apply (needed_is_ordered_difference Fake.foo_state "foo"
           ["1.2.3"; "v1.2.3"] Fake.foo_tags).
  reflexivity.
Defined.

Lemma needed_subset_and_disjoint_witness :
  ∃ needed tests,
    needed_comprehension {[ "foo" := ["1.2.3"; "v1.2.3"] ]} "foo" Fake.foo_tags
    = Ok (needed, tests)
    ∧ needed ⊆ Fake.foo_tags
    ∧ Forall (λ v, v ∉ ["1.2.3"; "v1.2.3"]) needed.
Proof.
  apply needed_subset_and_disjoint. reflexivity.
Defined.

Lemma scan_registers_version_and_alias_witness :
  ∃ ex,
    existing_versions (self Fake.foo_state) !! "foo" = Some ex
    ∧ ∀ v, v ∈ ex ↔
        ∃ filename, filename ∈ wheels_of Fake.foo_world "foo"
                    ∧ v ∈ registers "foo" filename.
Proof.
  destruct (scan_registers_version_and_alias
              Fake.foo_fresh_state Fake.foo_state "foo")
    as (ex & Hex & _ & Hall).
  - vm_compute. reflexivity.
  - simpl. by left.
  - by exists ex.
Defined.

Lemma main_without_config_raises_witness :
  main None (State blank Fake.foo_world [])
  = (Raise (KeyError "repos"), State blank Fake.foo_world []).
Proof.
  apply main_without_config_raises. reflexivity.
Defined.

Lemma reconcile_idempotent_witness :
  ∃ needed st1,
    reconcile "foo" Fake.foo_tags Fake.foo_state = (Ok (), st1)
    ∧ needed_versions (self st1) !! "foo" = Some needed
    ∧ reconcile "foo" Fake.foo_tags st1 = (Ok (), st1).
Proof.
  destruct (reconcile_idempotent Fake.foo_state "foo"
              ["1.2.3"; "v1.2.3"] Fake.foo_tags)
    as (needed & st1 & H1 & H2 & H3 & _).
  - reflexivity.
  - by exists needed, st1.
Defined.

Lemma disjoint_needs_all_tags_witness :
  needed_comprehension {[ "bar" := ["0.9.0"] ]} "bar" ["1.0.0"; "1.0.1"]
  = Ok (["1.0.0"; "1.0.1"], 2).
Proof.
  apply (disjoint_needs_all_tags _ "bar" ["0.9.0"]).
  - reflexivity.
  - apply Forall_forall. by repeat constructor; intros ?%list_elem_of_singleton.
Defined.

Lemma create_index_lists_matching_artifacts_witness :
  ∃ listed lines : list string,
    listed ≡ₚ filter (first_field_is "foo") (wheels_of Fake.foo_world "foo")
    ∧ Forall2 entry_of listed lines.
Proof.
  destruct (create_index_lists_matching_artifacts "foo" Fake.foo_state
              (_create_index "foo" Fake.foo_state).2)
    as (out_file & w1 & w2 & listed & lines
        & Hopen & Hwrite & _ & Hperm & _ & Hall).
  - vm_compute. reflexivity.
  - injection Hopen as <- <-. injection Hwrite as <-.
    by exists listed, lines.
Defined.

Lemma two_segments_are_a_precondition_witness :
  _clone_repo "foo" Fake.foo_state = (Raise ValueError, Fake.foo_state)
  ∧ build_repo "owner/foo/extra" Fake.foo_state
    = (Raise ValueError, Fake.foo_state).
Proof.
  split.
  - apply (two_segments_are_a_precondition Fake.foo_state "foo").
    vm_compute. discriminate.
  - apply (two_segments_are_a_precondition Fake.foo_state "owner/foo/extra").
    vm_compute. discriminate.
Defined.

(* ===================================================================== *)
(** * Further properties of the code *)
(* ===================================================================== *)

(** ** Fields of a split *)

Lemma count_char_app c (a b : string) :
  count_char c (a +:+ b) = count_char c a + count_char c b.
Proof.
  induction a as [|x a IH]; [done|].
  change (count_char c (String x (a +:+ b))
          = count_char c (String x a) + count_char c b).
  simpl. rewrite IH. lia.
Qed.

Lemma split_fields_no_sep sep s :
  Forall (λ field, count_char sep field = 0) (split sep s).
Proof.
  induction s as [|c s IH]; simpl.
  - by repeat constructor.
  - destruct (Ascii.eqb c sep) eqn:Hc; [by constructor|].
    destruct (split sep s) as [|field fields].
    + repeat constructor. simpl. by rewrite Hc.
    + apply Forall_cons in IH as [Hf Hfs].
      constructor; [|done]. simpl. by rewrite Hc, Hf.
Qed.

Lemma split_no_sep sep s : count_char sep s = 0 → split sep s = [s].
Proof.
  induction s as [|c s IH]; simpl; [done|].
  destruct (Ascii.eqb c sep); [done|]. simpl.
  intros Hs. by rewrite IH.
Qed.

Lemma split_app_sep sep (a b : string) :
  count_char sep a = 0 →
  split sep (a +:+ String sep b) = a :: split sep b.
Proof.
  induction a as [|c a IH].
  - intros _. change (split sep (String sep b) = EmptyString :: split sep b).
    simpl. by rewrite Ascii.eqb_refl.
  - change (count_char sep (String c a) = 0 →
            split sep (String c (a +:+ String sep b))
            = String c a :: split sep b).
    simpl. destruct (Ascii.eqb c sep); [done|]. simpl.
    intros Ha. by rewrite IH.
Qed.

(** ** Reconciliation and the order of the directory *)

Lemma stops_scan_perm pkg (files files' : list string) :
  files ≡ₚ files' →
  Exists (stops_scan pkg) files → Exists (stops_scan pkg) files'.
Proof.
  intros Hp. rewrite !Exists_exists. intros (f & Hf & Hs).
  exists f. split; [by rewrite <- Hp|done].
Qed.

(** X1. The order in which a directory lists its artifacts does not
    matter: on two listings with the same names the scan raises on both or
    on neither, the versions it registers are the same up to order, and
    line 92 computes the same needed versions from them. *)
Theorem listing_order_is_irrelevant pkg (files files' : list string) :
  files ≡ₚ files' →
  is_ok (scan_wheels pkg files []) = is_ok (scan_wheels pkg files' [])
  ∧ ∀ ex ex',
      scan_wheels pkg files [] = Ok ex →
      scan_wheels pkg files' [] = Ok ex' →
      ex ≡ₚ ex'
      ∧ ∀ (em : gmap string (list string)) (tags : list string),
          needed_comprehension (<[pkg := ex]> em) pkg tags
          = needed_comprehension (<[pkg := ex']> em) pkg tags.
Proof.
  intros Hp.
  destruct (scan_wheels_cases pkg files []) as [[Hex Hr]|[Hall Hr]],
    (scan_wheels_cases pkg files' []) as [[Hex' Hr']|[Hall' Hr']];
    rewrite Hr, Hr'; simpl.
  - split; [done|]. intros ?? [=].
  - exfalso. apply (stops_scan_perm _ _ _ Hp) in Hex.
    apply Exists_exists in Hex as (f & Hf & Hs).
    rewrite Forall_forall in Hall'. by apply (Hall' f).
  - exfalso. symmetry in Hp. apply (stops_scan_perm _ _ _ Hp) in Hex'.
    apply Exists_exists in Hex' as (f & Hf & Hs).
    rewrite Forall_forall in Hall. by apply (Hall f).
  - split; [done|]. intros ex ex' [= <-] [= <-].
    assert (Hperm : files ≫= registers pkg ≡ₚ files' ≫= registers pkg)
      by (by rewrite Hp).
    split; [done|]. intros em tags.
    rewrite (needed_comprehension_filter _ pkg (files ≫= registers pkg))
      by apply lookup_insert_eq.
    rewrite (needed_comprehension_filter _ pkg (files' ≫= registers pkg))
      by apply lookup_insert_eq.
    do 2 f_equal. apply list_filter_iff. intros t. by rewrite Hperm.
Qed.

Lemma filter_weaker_sublist {A} (P Q : A → Prop)
    `{!∀ x, Decision (P x)} `{!∀ x, Decision (Q x)} (l : list A) :
  (∀ x, Q x → P x) → filter Q l `sublist_of` filter P l.
Proof.
  intros Himp. induction l as [|x l IH]; [constructor|].
  destruct (decide (Q x)) as [Hq|Hq].
  - rewrite (filter_cons_True Q) by done.
    rewrite (filter_cons_True P) by auto. by constructor.
  - rewrite (filter_cons_False Q) by done.
    destruct (decide (P x)).
    + rewrite (filter_cons_True P) by done. by constructor.
    + by rewrite (filter_cons_False P).
Qed.

(** X2. More existing versions never mean more work: when the existing
    versions of a package grow, the needed versions computed from the same
    tags are a sublist of the ones computed before. *)
Theorem more_existing_less_needed (em em' : gmap string (list string)) pkg
    ex ex' (tags : list string) :
  em !! pkg = Some ex →
  em' !! pkg = Some ex' →
  ex ⊆ ex' →
  ∃ needed needed' tests,
    needed_comprehension em pkg tags = Ok (needed, tests)
    ∧ needed_comprehension em' pkg tags = Ok (needed', tests)
    ∧ needed' `sublist_of` needed.
Proof.
  intros Hex Hex' Hsub. eexists _, _, _.
  split; [by apply needed_comprehension_filter|].
  split; [by apply needed_comprehension_filter|].
  apply filter_weaker_sublist. intros t Ht Hin. apply Ht, Hsub, Hin.
Qed.

Lemma dashed_package_matches_nothing pkg :
  count_char "-" pkg ≠ 0 → ∀ filename, ¬ first_field_is pkg filename.
Proof.
  intros Hdash f Hf. unfold first_field_is in Hf.
  pose proof (split_fields_no_sep "-" f) as Hall.
  destruct (split "-" f) as [|p l]; [done|]. injection Hf as ->.
  by apply Forall_cons in Hall as [Hp _].
Qed.

Lemma unmatched_registers_nothing pkg (files : list string) :
  (∀ filename, ¬ first_field_is pkg filename) →
  files ≫= registers pkg = [].
Proof.
  intros Hnone. induction files as [|f files IH]; [done|].
  rewrite bind_cons, IH, app_nil_r. unfold registers.
  specialize (Hnone f). unfold first_field_is in Hnone.
  destruct (split "-" f) as [|p [|v l]]; try done.
  destruct (String.eqb_spec p pkg) as [->|]; [|done].
  by destruct Hnone.
Qed.

Lemma needed_of_nothing (em : gmap string (list string)) pkg
    (tags : list string) :
  em !! pkg = Some [] →
  needed_comprehension em pkg tags = Ok (tags, length tags).
Proof.
  intros Hex. rewrite (needed_comprehension_filter _ _ _ _ Hex).
  do 2 f_equal. induction tags as [|t tags IH]; [done|].
  rewrite filter_cons_True by apply not_elem_of_nil. by rewrite IH.
Qed.

Section Further.

Context {World : Type} `{!OS World}.

(** X3. A package whose name holds a dash is never recognised: no artifact
    name has it as first field, so a scan that returns has registered no
    version for it, whatever its directory holds, and every tag is needed
    again at every run. *)
Theorem dashed_package_is_never_matched pkg (st st' : state World) :
  count_char "-" pkg ≠ 0 →
  _detect_existing st = (Ok (), st') →
  pkg ∈ package_names (self st) →
  (∀ filename, ¬ first_field_is pkg filename)
  ∧ existing_versions (self st') !! pkg = Some []
  ∧ ∀ tags : list string,
      needed_comprehension (existing_versions (self st')) pkg tags
      = Ok (tags, length tags).
Proof.
  intros Hdash Hrun Hpkg.
  pose proof (dashed_package_matches_nothing pkg Hdash) as Hnone.
  destruct (detect_existing_entry st st' pkg Hrun Hpkg) as [_ Hex].
  rewrite (unmatched_registers_nothing pkg _ Hnone) in Hex.
  split; [done|]. split; [done|].
  intros tags. by apply needed_of_nothing.
Qed.

(** ** The builder across the pipeline *)

Lemma for_each_invariant {A} (I : state World → Prop) (l : list A)
    (body : A → M World unit) :
  (∀ x st st' r, x ∈ l → body x st = (r, st') → I st → I st') →
  ∀ st st' r, for_each l body st = (r, st') → I st → I st'.
Proof.
  induction l as [|x l IH]; intros Hbody st st' r; simpl.
  - unfold ret. by intros [= _ <-].
  - unfold bind. destruct (body x st) as [[[]|e] st1] eqn:Hx.
    + intros Hrest Hst. eapply IH; [|exact Hrest|].
      * intros y s s' r' Hy. apply Hbody. by right.
      * eapply Hbody; [by left|exact Hx|done].
    + intros [= _ <-] Hst. eapply Hbody; [by left|exact Hx|done].
Qed.

Lemma mapM_result_elem {A B} (f : A → result B) (l : list A) (k : list B) x :
  mapM f l = Ok k → x ∈ l → ∃ y, f x = Ok y ∧ y ∈ k.
Proof.
  revert k. induction l as [|a l IH]; intros k Hk Hx.
  - by apply elem_of_nil in Hx.
  - simpl in Hk. destruct (f a) as [b|e] eqn:Hfa; [|done]. simpl in Hk.
    destruct (mapM f l) as [k'|e] eqn:Hl; [|done]. simpl in Hk.
    injection Hk as <-.
    apply elem_of_cons in Hx as [->|Hx].
    + exists b. split; [done|by left].
    + destruct (IH k' eq_refl Hx) as (y & Hy & Hin).
      exists y. split; [done|by right].
Qed.

(** X4. The two ways of reading an identifier agree where it matters:
    once [__init__] has returned, every configured repository with exactly
    one slash unpacks into an owner and a package for which the builder
    holds existing versions, those its directory gives; so the lookup of
    line 92 finds its key and returns the tags that are not among them. *)
Theorem configured_repo_has_existing_versions config (st st' : state World)
    repo :
  __init__ config st = (Ok (), st') →
  repo ∈ repos (self st') →
  count_char "/" repo = 1 →
  ∃ repo_owner package_name ex,
    unpack2 (repo_owner_and_package_name_from_repo repo)
    = Ok (repo_owner, package_name)
    ∧ package_name ∈ package_names (self st')
    ∧ scan_package (world st') package_name = Ok ex
    ∧ existing_versions (self st') !! package_name = Some ex
    ∧ ∀ tags : list string,
        needed_comprehension (existing_versions (self st')) package_name tags
        = Ok (filter (λ t, t ∉ ex) tags, length tags).
Proof.
  intros Hinit Hrepo Hone.
  apply __init___registers_every_package in Hinit as (_ & Hnames & Hall).
  destruct (one_slash_unpacks repo Hone) as (o & p & Hun & Hp).
  destruct (mapM_result_elem _ _ _ repo Hnames Hrepo) as (y & Hy & Hin).
  assert (y = p) as -> by congruence.
  destruct (Hall p Hin) as (ex & Hscan & Hex).
  exists o, p, ex. repeat split; try done.
  intros tags. by apply needed_comprehension_filter.
Qed.

(** Composition of a step that leaves the builder alone with a
    continuation that changes it within a reflexive relation. *)
Lemma bind_frame {A B} (R : relation builder) `{!Reflexive R}
    (m : M World A) (k : A → M World B) :
  (∀ st st' r, m st = (r, st') → self st' = self st) →
  (∀ a st0 st st' r,
     m st0 = (Ok a, st) → k a st = (r, st') → R (self st) (self st')) →
  ∀ st st' r, bind m k st = (r, st') → R (self st) (self st').
Proof.
  intros Hm Hk st st' r. unfold bind.
  destruct (m st) as [[a|e] st1] eqn:Hrun.
  - intros Hrest. rewrite <- (Hm _ _ _ Hrun). by eapply Hk.
  - intros [= _ <-]. by rewrite (Hm _ _ _ Hrun).
Qed.

Lemma bind_self {A B} (m : M World A) (k : A → M World B) :
  (∀ st st' r, m st = (r, st') → self st' = self st) →
  (∀ a st st' r, k a st = (r, st') → self st' = self st) →
  ∀ st st' r, bind m k st = (r, st') → self st' = self st.
Proof.
  intros Hm Hk st st' r Hrun. symmetry.
  apply (bind_frame eq m k) with (r := r); [done| |done].
  intros a _ s s' r' _ Hka. symmetry. by eapply Hk.
Qed.

Lemma lift_self {A} (x : result A) (st st' : state World) r :
  lift x st = (r, st') → self st' = self st.
Proof. unfold lift. by intros [= _ <-]. Qed.

Lemma get_self_self (st st' : state World) r :
  get_self st = (r, st') → self st' = self st.
Proof. unfold get_self. by intros [= _ <-]. Qed.

Lemma ask_self {A} (q : World → A) (st st' : state World) r :
  ask q st = (r, st') → self st' = self st.
Proof. unfold ask. by intros [= _ <-]. Qed.

Lemma ret_self {A} (a : A) (st st' : state World) r :
  ret a st = (r, st') → self st' = self st.
Proof. unfold ret. by intros [= _ <-]. Qed.

Lemma reconcile_frame (touched : string → Prop) pkg tags
    (st st' : state World) r :
  touched pkg →
  reconcile pkg tags st = (r, st') →
  same_but_needed touched (self st) (self st').
Proof.
  intros Ht. unfold reconcile, bind, get_self, lift.
  destruct (needed_comprehension _ _ _) as [[nd n]|e];
    [|by intros [= _ <-]].
  unfold set_needed_versions, bind, get_self, set_self.
  intros [= _ <-]. repeat split; try done.
  intros k Hk. unfold needed_versions. simpl.
  apply lookup_insert_ne. by intros ->.
Qed.

Lemma _clone_repo_frame repo (st st' : state World) r :
  _clone_repo repo st = (r, st') →
  same_but_needed (λ pkg, split "/" repo !! 1 = Some pkg) (self st) (self st').
Proof.
  unfold _clone_repo. revert st st' r.
  apply bind_frame; [apply _|apply lift_self|].
  intros [o p] st0 st st' r Hun. unfold lift in Hun. injection Hun as Hun _.
  assert (Hp : split "/" repo !! 1 = Some p).
  { unfold repo_owner_and_package_name_from_repo in Hun.
    destruct (split "/" repo) as [|a [|b [|c l]]]; simpl in Hun; try done.
    by injection Hun as _ ->. }
  clear Hun st0. revert st st' r.
  apply bind_frame; [apply _|apply get_self_self|].
  intros b _ st st' r _. revert st st' r.
  apply bind_frame; [apply _|apply ask_self|].
  intros is_git _ st st' r _. revert st st' r.
  apply bind_frame; [apply _| |].
  { destruct (negb is_git); [apply run_self|].
    apply bind_self; [apply run_self|]. intros _.
    apply bind_self; [apply run_self|]. intros _. apply run_self. }
  intros [] _ st st' r _. revert st st' r.
  apply bind_frame; [apply _|apply _get_repo_tags_self|].
  intros tags _ st st' r _. by apply reconcile_frame.
Qed.

(** X5. [_clone_repo] never touches what the scan found: whether it
    returns or raises, the repositories, the clone directory, the package
    names and the existing versions of the builder are as before, and the
    needed versions change at most for the package named by the second
    segment of the identifier. *)
Theorem _clone_repo_keeps_existing_versions repo (st st' : state World) r :
  _clone_repo repo st = (r, st') →
  repos (self st') = repos (self st)
  ∧ clone_dir (self st') = clone_dir (self st)
  ∧ package_names (self st') = package_names (self st)
  ∧ existing_versions (self st') = existing_versions (self st)
  ∧ ∀ pkg, split "/" repo !! 1 ≠ Some pkg →
      needed_versions (self st') !! pkg = needed_versions (self st) !! pkg.
Proof.
  intros Hrun.
  destruct (_clone_repo_frame repo st st' r Hrun) as (H1 & H2 & H3 & H4 & H5).
  repeat split; done.
Qed.

(** X6. Hence [clone_repos] as a whole keeps the existing versions, and
    changes the needed versions of no package other than those named by
    the second segment of a configured repository. *)
Theorem clone_repos_keeps_existing_versions (st st' : state World) r :
  clone_repos st = (r, st') →
  existing_versions (self st') = existing_versions (self st)
  ∧ package_names (self st') = package_names (self st)
  ∧ ∀ pkg, (∀ repo, repo ∈ repos (self st) → split "/" repo !! 1 ≠ Some pkg) →
      needed_versions (self st') !! pkg = needed_versions (self st) !! pkg.
Proof.
  unfold clone_repos, bind, get_self. intros Hrun.
  set (touched := λ pkg, ∃ repo, repo ∈ repos (self st)
                                 ∧ split "/" repo !! 1 = Some pkg).
  assert (Hinv : same_but_needed touched (self st) (self st')).
  { eapply (for_each_invariant
              (λ s, same_but_needed touched (self st) (self s)));
      [|exact Hrun|done].
    intros repo s s' r' Hin Hbody Hs. etransitivity; [exact Hs|].
    apply _clone_repo_frame in Hbody
      as (K1 & K2 & K3 & K4 & K5).
    repeat split; try done.
    intros pkg Hpkg. apply K5. intros Hsplit. apply Hpkg. by exists repo. }
  destruct Hinv as (_ & _ & H3 & H4 & H5).
  split; [done|]. split; [done|].
  intros pkg Hpkg. apply H5. intros (repo & Hin & Hs). by apply (Hpkg repo).
Qed.

(** ** Construction *)

(** X7. [__init__] does nothing outside the process before it has read
    both keys of the configuration: with [repos] present and [clone_dir]
    missing it raises [KeyError] for [clone_dir], with a list as
    [clone_dir] it raises [TypeError], and in both cases no directory has
    been created and nothing has been scanned. *)
Theorem __init___needs_clone_dir config (st : state World) r :
  config !! "repos" = Some r →
  (config !! "clone_dir" = None →
     ∃ st', __init__ config st = (Raise (KeyError "clone_dir"), st')
            ∧ world st' = world st ∧ log st' = log st)
  ∧ (∀ l, config !! "clone_dir" = Some (CList l) →
     ∃ st', __init__ config st = (Raise TypeError, st')
            ∧ world st' = world st ∧ log st' = log st).
Proof.
  intros Hr. split.
  - intros Hd. eexists. unfold __init__, bind, lift, getitem, get_self, set_self.
    rewrite Hr, Hd. simpl. done.
  - intros l Hd. eexists.
    unfold __init__, bind, lift, getitem, get_self, set_self.
    rewrite Hr, Hd. simpl. done.
Qed.

(** ** The index pages *)

Lemma index_loop_second_field out_file pkg (l : list string)
    (st st' : state World) :
  for_each l (write_index_entry out_file pkg) st = (Ok (), st') →
  Forall (λ f, is_Some (split "-" f !! 1)) l.
Proof.
  revert st. induction l as [|f l IH]; intros st; simpl; [by constructor|].
  intros Hrun. apply bind_ok_inv in Hrun as ([] & st1 & Hf & Hrest).
  constructor; [|by eapply IH].
  apply write_index_entry_ok_inv in Hf as (v & Hv & _). by exists v.
Qed.

(** X8. A page is only generated for a directory in which every artifact
    name, of whatever package, has a second field: when [_create_index]
    returns, all the names the glob gave have one.  A stray name without a
    dash makes the generation of the page raise. *)
Theorem create_index_needs_second_fields pkg (st st' : state World) :
  _create_index pkg st = (Ok (), st') →
  ∃ out_file w1 w2,
    os_open_w (index_path pkg) (world st) = (Ok out_file, w1)
    ∧ os_write out_file html_header w1 = (Ok (), w2)
    ∧ Forall (λ f, is_Some (split "-" f !! 1)) (wheels_of w2 pkg).
Proof.
  unfold _create_index. intros Hrun.
  apply with_open_w_ok_inv in Hrun
    as (out_file & w1 & st1 & w3 & Hopen & Hbody & _ & ->).
  apply bind_ok_inv in Hbody as ([] & st2 & Hhead & Hbody).
  apply write_ok_inv in Hhead as (w2 & Hhead & ->). simpl in Hhead.
  apply bind_ok_inv in Hbody as (filenames & st3 & Hglob & Hbody).
  unfold glob_whl, ask in Hglob. simpl in Hglob.
  injection Hglob as <- <-.
  apply bind_ok_inv in Hbody as ([] & st4 & Hloop & _).
  apply index_loop_second_field in Hloop.
  exists out_file, w1, w2. split; [done|]. split; [done|].
  unfold wheels_of. by rewrite <- (sorted_perm (List.filter _ _)).
Qed.

Lemma write_self out_file data (st st' : state World) r :
  write out_file data st = (r, st') → self st' = self st.
Proof. apply call_self. Qed.

Lemma with_open_w_self {A} path (body : fd → M World A) :
  (∀ f st st' r, body f st = (r, st') → self st' = self st) →
  ∀ st st' r, with_open_w path body st = (r, st') → self st' = self st.
Proof.
  intros Hbody. unfold with_open_w. apply bind_self; [apply call_self|].
  intros f st st' r.
  destruct (body f st) as [r1 st1] eqn:Hb. apply Hbody in Hb.
  destruct (call _ _ st1) as [[[]|e] st2] eqn:Hc; apply call_self in Hc;
    intros [= _ <-]; congruence.
Qed.

Lemma write_index_entry_self out_file pkg f (st st' : state World) r :
  write_index_entry out_file pkg f st = (r, st') → self st' = self st.
Proof.
  unfold write_index_entry. revert st st' r.
  apply bind_self; [apply lift_self|]. intros p.
  apply bind_self; [apply lift_self|]. intros v.
  destruct (String.eqb p pkg); [apply write_self|apply ret_self].
Qed.

Lemma _create_index_self pkg (st st' : state World) r :
  _create_index pkg st = (r, st') → self st' = self st.
Proof.
  unfold _create_index. revert st st' r.
  apply with_open_w_self. intros f.
  apply bind_self; [apply write_self|]. intros _.
  apply bind_self; [apply ask_self|]. intros filenames.
  apply bind_self; [|intros _; apply write_self].
  apply for_each_self. intros x. apply write_index_entry_self.
Qed.

Lemma _create_index_ok_log pkg (st st' : state World) :
  _create_index pkg st = (Ok (), st') → ∃ evs, log st' = log st ++ evs.
Proof.
  unfold _create_index. intros Hrun.
  apply with_open_w_ok_inv in Hrun
    as (out_file & w1 & st1 & w3 & Hopen & Hbody & _ & ->).
  apply bind_ok_inv in Hbody as ([] & st2 & Hhead & Hbody).
  apply write_ok_inv in Hhead as (w2 & Hhead & ->).
  apply bind_ok_inv in Hbody as (filenames & st3 & Hglob & Hbody).
  unfold glob_whl, ask in Hglob. injection Hglob as <- <-.
  apply bind_ok_inv in Hbody as ([] & st4 & Hloop & Hfoot).
  apply index_loop_inv in Hloop as (lines & Hlog & _). simpl in Hlog.
  apply write_ok_inv in Hfoot as (w4 & _ & ->).
  eexists. cbn [log]. rewrite Hlog, <- !app_assoc. done.
Qed.

Lemma root_loop_inv out_file (l : list string) (st st' : state World) :
  for_each l (λ package_name,
      bind (_create_index package_name)
        (λ _, write out_file (root_line package_name))) st
  = (Ok (), st') →
  ∃ pages,
    Forall2 page_events l pages
    ∧ log st' = log st ++ root_body out_file l pages.
Proof.
  revert st. induction l as [|pkg l IH]; intros st; simpl.
  - unfold ret. intros [= <-]. exists []. split; [constructor|].
    unfold root_body. simpl. by rewrite app_nil_r.
  - intros Hrun. apply bind_ok_inv in Hrun as ([] & st2 & Hbody & Hrest).
    apply bind_ok_inv in Hbody as ([] & st1 & Hpage & Hline).
    apply write_ok_inv in Hline as (w & _ & ->).
    apply IH in Hrest as (pages & Hall & Hlog). cbn [log] in Hlog.
    destruct (_create_index_ok_log _ _ _ Hpage) as (evs & Hevs).
    exists (evs :: pages). split.
    + constructor; [|done]. by exists st, st1.
    + rewrite Hlog, Hevs. unfold root_body. simpl.
      by rewrite <- !app_assoc.
Qed.

(** X9. When [create_indices] returns, it has opened the root page,
    written the header, then for each package name of the builder, in
    order and as often as it occurs, generated the page of the package and
    written the package's line to the root page, then written the footer
    and closed the root page.  The builder is unchanged. *)
Theorem create_indices_lists_every_package (st st' : state World) :
  create_indices st = (Ok (), st') →
  self st' = self st
  ∧ ∃ out_file pages,
      Forall2 page_events (package_names (self st)) pages
      ∧ log st' = log st ++ [EvOpen root_index_path out_file]
                  ++ [EvWrite out_file html_header]
                  ++ root_body out_file (package_names (self st)) pages
                  ++ [EvWrite out_file html_footer]
                  ++ [EvClose out_file].
Proof.
  intros Hrun. split.
  { revert Hrun. unfold create_indices. apply with_open_w_self. intros f.
    apply bind_self; [apply write_self|]. intros _.
    apply bind_self; [apply get_self_self|]. intros b.
    apply bind_self; [|intros _; apply write_self].
    apply for_each_self. intros x.
    apply bind_self; [apply _create_index_self|]. intros _. apply write_self. }
  unfold create_indices in Hrun.
  apply with_open_w_ok_inv in Hrun
    as (out_file & w1 & st1 & w3 & Hopen & Hbody & _ & ->).
  apply bind_ok_inv in Hbody as ([] & st2 & Hhead & Hbody).
  apply write_ok_inv in Hhead as (w2 & _ & ->).
  apply bind_ok_inv in Hbody as (b & st3 & [= <- <-] & Hbody).
  apply bind_ok_inv in Hbody as ([] & st4 & Hloop & Hfoot).
  apply root_loop_inv in Hloop as (pages & Hall & Hlog).
  cbn [log self] in Hlog, Hall.
  apply write_ok_inv in Hfoot as (w4 & _ & ->).
  exists out_file, pages. split; [done|].
  cbn [log]. rewrite Hlog, <- !app_assoc. done.
Qed.

(** ** Building a version *)

Lemma enumerate_first_digit i (pre : string) c suf idx :
  no_digit pre = true →
  isdigit c = true →
  enumerate_until_digit i (pre +:+ String c suf) idx
  = Some (i + String.length pre).
Proof.
  revert i idx. induction pre as [|x pre IH]; intros i idx Hpre Hc.
  - change (enumerate_until_digit i (String c suf) idx = Some (i + 0)).
    simpl. rewrite Hc. f_equal. lia.
  - change (enumerate_until_digit i (String x (pre +:+ String c suf)) idx
            = Some (i + S (String.length pre))).
    simpl in *. apply andb_prop in Hpre as [Hx Hpre].
    apply negb_true_iff in Hx. rewrite Hx.
    rewrite IH by done. f_equal. lia.
Qed.

Lemma str_from_app (pre s : string) :
  str_from (String.length pre) (pre +:+ s) = s.
Proof.
  induction pre as [|x pre IH]; [by destruct s|].
  change (str_from (S (String.length pre)) (String x (pre +:+ s)) = s).
  simpl. apply IH.
Qed.

(** X10. The version text of a wheel is the tag from its first digit on:
    for a tag made of a part without digits and a part that starts with a
    digit, the loop of lines 114 to 116 leaves in [index] the length of
    the first part, whatever [index] held before, and [version[index:]] is
    the second part. *)
Theorem version_text_starts_at_first_digit (pre : string) c suf idx :
  no_digit pre = true →
  isdigit c = true →
  enumerate_until_digit 0 (pre +:+ String c suf) idx
  = Some (String.length pre)
  ∧ str_from (String.length pre) (pre +:+ String c suf) = String c suf.
Proof.
  intros Hpre Hc. split; [|apply str_from_app].
  by rewrite enumerate_first_digit.
Qed.

Lemma enumerate_no_digit i (pre : string) c idx :
  no_digit (pre +:+ String c EmptyString) = true →
  enumerate_until_digit i (pre +:+ String c EmptyString) idx
  = Some (i + String.length pre).
Proof.
  revert i idx. induction pre as [|x pre IH]; intros i idx.
  - change (no_digit (String c EmptyString) = true →
            enumerate_until_digit i (String c EmptyString) idx = Some (i + 0)).
    simpl. rewrite andb_true_r. intros Hc%negb_true_iff. rewrite Hc.
    f_equal. lia.
  - change (no_digit (String x (pre +:+ String c EmptyString)) = true →
            enumerate_until_digit i (String x (pre +:+ String c EmptyString))
              idx = Some (i + S (String.length pre))).
    simpl. intros [Hx Hpre]%andb_prop. apply negb_true_iff in Hx.
    rewrite Hx, IH by done. f_equal. lia.
Qed.

(** X11. A tag without any digit is cut down to its last character: the
    loop runs to the end, [index] is the last position, and the version
    text of the wheel is the one character there. *)
Theorem tag_without_digit_keeps_last_character (pre : string) c idx :
  no_digit (pre +:+ String c EmptyString) = true →
  enumerate_until_digit 0 (pre +:+ String c EmptyString) idx
  = Some (String.length pre)
  ∧ str_from (String.length pre) (pre +:+ String c EmptyString)
    = String c EmptyString.
Proof.
  intros Hno. split; [|apply str_from_app].
  by rewrite enumerate_no_digit.
Qed.

Lemma build_and_copy_wheel_ok_inv g pkg idx version
    (st st' : state World) idx' :
  build_and_copy_wheel g pkg idx version st = (Ok idx', st') →
  ∃ i (st1 : state World),
    enumerate_until_digit 0 version idx = Some i
    ∧ idx' = Some i
    ∧ log st' = log st1
        ++ [EvRun ["cp"; str (built_wheel g pkg version i);
                   str (joinpath (package_path_from_package_name pkg)
                          (name (built_wheel g pkg version i)))] None].
Proof.
  unfold build_and_copy_wheel. intros Hrun.
  apply bind_ok_inv in Hrun as ([] & s1 & _ & Hrun).
  apply bind_ok_inv in Hrun as ([] & s2 & _ & Hrun).
  apply bind_ok_inv in Hrun as ([] & s3 & _ & Hrun).
  apply bind_ok_inv in Hrun as (i & s4 & Hi & Hrun).
  unfold lift in Hi. injection Hi as Hi <-.
  destruct (enumerate_until_digit 0 version idx) as [i'|] eqn:Hidx; [|done].
  injection Hi as ->.
  apply bind_ok_inv in Hrun as ([] & s5 & Hcp & Hret).
  unfold ret in Hret. injection Hret as <- <-.
  unfold run, call in Hcp.
  destruct (os_run _ _ (world s3)) as [[[]|e] w]; [|done].
  injection Hcp as <-. by exists i, s3.
Qed.


Lemma replace_char_absent old new s :
  count_char old s = 0 → replace_char old new s = s.
Proof.
  induction s as [|c s IH]; simpl; [done|].
  destruct (Ascii.eqb c old); [done|]. simpl. intros Hs. by rewrite IH.
Qed.

Lemma wheel_name_has_dash pkg d : count_char "-" (wheel_name pkg d) ≠ 0.
Proof.
  unfold wheel_name. rewrite count_char_app.
  change ("-" +:+ d +:+ "-py3-none-any.whl")
    with (String "-" (d +:+ "-py3-none-any.whl")).
  simpl. lia.
Qed.

Lemma wheel_name_no_slash pkg d :
  count_char "/" pkg = 0 → count_char "/" d = 0 →
  count_char "/" (wheel_name pkg d) = 0.
Proof.
  intros Hp Hd. unfold wheel_name.
  change ("-" +:+ d +:+ "-py3-none-any.whl")
    with (String "-" (d +:+ "-py3-none-any.whl")).
  rewrite count_char_app. simpl. rewrite count_char_app, Hp, Hd. done.
Qed.

(** The name of a file put under [dist] in some directory. *)
Lemma name_in_dist g (x : string) :
  count_char "/" x = 0 → count_char "-" x ≠ 0 →
  name (joinpath g ("dist/" +:+ x)) = x.
Proof.
  intros Hslash Hdash. unfold joinpath, parse.
  change (startswith_char "/" ("dist/" +:+ x)) with false.
  change (splitroot ("dist/" +:+ x)) with (EmptyString, "dist/" +:+ x).
  cbn [parts root].
  change ("dist/" +:+ x) with ("dist" +:+ String "/" x).
  rewrite split_app_sep by done. rewrite (split_no_sep "/" x) by done.
  assert (Hx : is_component x = true).
  { unfold is_component.
    destruct (String.eqb_spec x EmptyString) as [->|_]; [done|].
    destruct (String.eqb_spec x ".") as [->|_]; [done|]. done. }
  simpl. rewrite Hx. unfold name. cbn [parts].
  change ["dist"; x] with (["dist"] ++ [x]).
  by rewrite app_assoc, last_snoc.
Qed.

Lemma registers_wheel_name pkg c suf :
  count_char "-" pkg = 0 → count_char "-" (String c suf) = 0 →
  registers pkg (wheel_name pkg (String c suf))
  = String c suf :: if isdigit c then ["v" +:+ String c suf] else [].
Proof.
  intros Hp Hd. unfold registers, wheel_name.
  change (pkg +:+ "-" +:+ String c suf +:+ "-py3-none-any.whl")
    with (pkg +:+ String "-" (String c suf +:+ String "-" "py3-none-any.whl")).
  rewrite split_app_sep by done. rewrite split_app_sep by done.
  change (split "-" "py3-none-any.whl") with ["py3"; "none"; "any.whl"].
  by rewrite String.eqb_refl.
Qed.

Lemma built_wheel_name g pkg (pre : string) c suf :
  count_char "-" pkg = 0 → count_char "/" pkg = 0 →
  count_char "/" (String c suf) = 0 →
  name (built_wheel g pkg (pre +:+ String c suf) (String.length pre))
  = wheel_name pkg (String c suf).
Proof.
  intros Hdash Hslash Hd. unfold built_wheel.
  rewrite replace_char_absent by done. rewrite str_from_app.
  apply (name_in_dist g (wheel_name pkg (String c suf))).
  - by apply wheel_name_no_slash.
  - apply wheel_name_has_dash.
Qed.

(** X13. Building and scanning go together for the usual tags.  For a
    package name without dash or slash and a tag that is a version
    starting with a digit, with or without the letter v in front, and
    without dash or slash, a build that returns has copied, last, the
    wheel [<package>-<version>-py3-none-any.whl] into the directory of the
    package, and that file name registers the tag: the next run does not
    need it. *)
Theorem built_wheel_is_recognised g pkg idx (pre : string) c suf
    (st st' : state World) idx' :
  build_and_copy_wheel g pkg idx (pre +:+ String c suf) st = (Ok idx', st') →
  count_char "-" pkg = 0 → count_char "/" pkg = 0 →
  pre = EmptyString ∨ pre = "v" →
  isdigit c = true →
  count_char "-" (String c suf) = 0 → count_char "/" (String c suf) = 0 →
  ∃ src,
    last (log st')
    = Some (EvRun ["cp"; src;
                   str (joinpath (package_path_from_package_name pkg)
                          (wheel_name pkg (String c suf)))] None)
    ∧ (pre +:+ String c suf) ∈ registers pkg (wheel_name pkg (String c suf)).
Proof.
  intros Hrun Hdash Hslash Hpre Hc Hd1 Hd2.
  assert (Hno : no_digit pre = true) by (by destruct Hpre as [-> | ->]).
  apply build_and_copy_wheel_ok_inv in Hrun as (i & st1 & Hi & _ & Hlog).
  rewrite enumerate_first_digit in Hi by done. injection Hi as <-.
  rewrite built_wheel_name in Hlog by done.
  eexists. split; [by rewrite Hlog, last_snoc|].
  rewrite registers_wheel_name, Hc by done.
  destruct Hpre as [-> | ->]; [by left|right; by left].
Qed.

Lemma length_append (a b : string) :
  String.length (a +:+ b) = String.length a + String.length b.
Proof.
  induction a as [|x a IH]; [done|].
  change (S (String.length (a +:+ b)) = S (String.length a + String.length b)).
  by rewrite IH.
Qed.

Lemma append_eq_self (p d : string) : p +:+ d = d → p = EmptyString.
Proof.
  intros Heq. apply (f_equal String.length) in Heq.
  rewrite length_append in Heq. destruct p; [done|]. simpl in Heq. lia.
Qed.

(** X14. A tag with any other prefix is built again at every run.  When
    the part before the first digit is neither empty nor the letter v, the
    wheel copied for the tag registers the version after the prefix and
    that version with the letter v in front, and neither is the tag. *)
Theorem other_prefix_is_never_recognised g pkg idx (pre : string) c suf
    (st st' : state World) idx' :
  build_and_copy_wheel g pkg idx (pre +:+ String c suf) st = (Ok idx', st') →
  count_char "-" pkg = 0 → count_char "/" pkg = 0 →
  no_digit pre = true → pre ≠ EmptyString → pre ≠ "v" →
  isdigit c = true →
  count_char "-" (String c suf) = 0 → count_char "/" (String c suf) = 0 →
  ∃ src,
    last (log st')
    = Some (EvRun ["cp"; src;
                   str (joinpath (package_path_from_package_name pkg)
                          (wheel_name pkg (String c suf)))] None)
    ∧ registers pkg (wheel_name pkg (String c suf))
      = [String c suf; "v" +:+ String c suf]
    ∧ (pre +:+ String c suf) ∉ registers pkg (wheel_name pkg (String c suf)).
Proof.
  intros Hrun Hdash Hslash Hno Hne Hnv Hc Hd1 Hd2.
  apply build_and_copy_wheel_ok_inv in Hrun as (i & st1 & Hi & _ & Hlog).
  rewrite enumerate_first_digit in Hi by done. injection Hi as <-.
  rewrite built_wheel_name in Hlog by done.
  eexists. split; [by rewrite Hlog, last_snoc|].
  rewrite registers_wheel_name, Hc by done. split; [done|].
  intros Hin. apply elem_of_cons in Hin as [Heq|Hin].
  - by apply append_eq_self in Heq.
  - apply list_elem_of_singleton in Hin.
    destruct pre as [|x pre]; [done|].
    change (String x (pre +:+ String c suf) = String "v" (String c suf)) in Hin.
    injection Hin as -> Heq. apply append_eq_self in Heq. by subst.
Qed.

(** ** A run without repositories *)

Lemma makedirs_ok_inv p (st st' : state World) :
  makedirs p st = (Ok (), st') →
  self st' = self st ∧ log st' = log st ++ [EvMakedirs p].
Proof.
  unfold makedirs, call.
  destruct (os_makedirs p (world st)) as [[[]|e] w]; [|done].
  by intros [= <-].
Qed.

(** X15. What a configuration without repositories does: when [main]
    returns on a configuration file with an empty [repos] list, it has
    loaded the file, created the index directory and the clone directory,
    and written a root page made of the header and the footer; it has
    started no sub-process, and the builder knows no version. *)
Theorem main_without_repos args_config config d w (st st' : state World) :
  os_is_file (str (parse (default "./config.yaml" args_config))) (world st)
  = true →
  os_load_yaml (str (parse (default "./config.yaml" args_config))) (world st)
  = (Ok config, w) →
  config !! "repos" = Some (CList []) →
  config !! "clone_dir" = Some (CStr d) →
  main args_config st = (Ok (), st') →
  existing_versions (self st') = ∅ ∧ needed_versions (self st') = ∅
  ∧ ∃ out_file,
      log st' = log st
        ++ [EvLoadYaml (str (parse (default "./config.yaml" args_config)));
            EvMakedirs "simple";
            EvMakedirs ("./" +:+ str (parse d));
            EvOpen root_index_path out_file;
            EvWrite out_file html_header;
            EvWrite out_file html_footer;
            EvClose out_file].
Proof.
  intros Hfile Hload Hr Hd. unfold main. intros Hrun.
  apply bind_ok_inv in Hrun as (present & s1 & Hask & Hrun).
  unfold ask in Hask. rewrite Hfile in Hask. injection Hask as <- <-.
  apply bind_ok_inv in Hrun as (config' & s2 & Hcfg & Hrun).
  unfold call in Hcfg. rewrite Hload in Hcfg. injection Hcfg as <- <-.
  apply bind_ok_inv in Hrun as ([] & s3 & Hinit & Hrun).
  unfold __init__ in Hinit.
  apply bind_ok_inv in Hinit as (r & t1 & Hr' & Hinit).
  unfold lift, getitem in Hr'. rewrite Hr in Hr'. injection Hr' as <- <-.
  apply bind_ok_inv in Hinit as (b0 & t2 & [= <- <-] & Hinit).
  apply bind_ok_inv in Hinit as ([] & t3 & [= <-] & Hinit).
  apply bind_ok_inv in Hinit as (d' & t4 & Hd' & Hinit).
  unfold lift, getitem in Hd'. rewrite Hd in Hd'. injection Hd' as <- <-.
  apply bind_ok_inv in Hinit as (p & t5 & [= <- <-] & Hinit).
  apply bind_ok_inv in Hinit as (b1 & t6 & [= <- <-] & Hinit).
  apply bind_ok_inv in Hinit as ([] & t7 & [= <-] & Hinit).
  apply bind_ok_inv in Hinit as (b2 & t8 & [= <- <-] & Hinit).
  apply bind_ok_inv in Hinit as (names & t9 & [= <- <-] & Hinit).
  apply bind_ok_inv in Hinit as ([] & t10 & [= <-] & Hinit).
  apply bind_ok_inv in Hinit as ([] & t11 & Hdirs & Hdetect).
  unfold _make_dirs in Hdirs.
  apply bind_ok_inv in Hdirs as ([] & u1 & Hroot & Hdirs).
  apply makedirs_ok_inv in Hroot as [Hs1 Hl1].
  apply bind_ok_inv in Hdirs as (b3 & u2 & [= <- <-] & Hdirs).
  rewrite Hs1 in Hdirs. cbn [self package_names __package_names] in Hdirs.
  apply bind_ok_inv in Hdirs as ([] & u3 & [= <-] & Hdirs).
  apply bind_ok_inv in Hdirs as (b4 & u4 & [= <- <-] & Hdirs).
  rewrite Hs1 in Hdirs. cbn [self clone_dir __clone_dir] in Hdirs.
  apply makedirs_ok_inv in Hdirs as [Hs2 Hl2].
  unfold _detect_existing, bind, get_self in Hdetect.
  rewrite Hs2, Hs1 in Hdetect. cbn in Hdetect. injection Hdetect as <-.
  apply bind_ok_inv in Hrun as ([] & s4 & Hclone & Hrun).
  unfold clone_repos, bind, get_self in Hclone.
  rewrite Hs2, Hs1 in Hclone. cbn in Hclone. injection Hclone as <-.
  apply bind_ok_inv in Hrun as ([] & s5 & Hbuild & Hrun).
  unfold build_all, bind, get_self in Hbuild.
  rewrite Hs2, Hs1 in Hbuild. cbn in Hbuild. injection Hbuild as <-.
  unfold create_indices in Hrun.
  apply with_open_w_ok_inv in Hrun
    as (out_file & w1 & v1 & w3 & Hopen & Hbody & _ & ->).
  apply bind_ok_inv in Hbody as ([] & v2 & Hhead & Hbody).
  apply write_ok_inv in Hhead as (w2 & _ & ->).
  apply bind_ok_inv in Hbody as (b5 & v3 & [= <- <-] & Hbody).
  cbn [self] in Hbody. rewrite Hs2, Hs1 in Hbody.
  cbn [self package_names __package_names] in Hbody.
  apply bind_ok_inv in Hbody as ([] & v4 & [= <-] & Hfoot).
  apply write_ok_inv in Hfoot as (w4 & _ & ->).
  cbn [self log]. split; [done|]. split; [done|].
  exists out_file. rewrite Hl2, Hl1. cbn [log].
  by rewrite <- !app_assoc.
Qed.

(** ** Paths of a package *)

Lemma parse_no_slash (x : string) :
  count_char "/" x = 0 →
  parse x = Path EmptyString (if is_component x then [x] else []).
Proof.
  intros Hx. unfold parse.
  assert (Hroot : splitroot x = (EmptyString, x)).
  { destruct x as [|c x]; [done|]. simpl in *.
    by destruct (Ascii.eqb c "/"). }
  rewrite Hroot, (split_no_sep "/" x) by done. simpl.
  by destruct (is_component x).
Qed.

Lemma joinpath_no_slash p (x : string) :
  count_char "/" x = 0 →
  joinpath p x = Path (root p) (parts p ++ if is_component x then [x] else []).
Proof.
  intros Hx. unfold joinpath.
  assert (Hstart : startswith_char "/" x = false).
  { destruct x as [|c x]; [done|].
    destruct (Ascii.eqb_spec c "/") as [->|Hne]; [done|].
    apply Ascii.eqb_neq. congruence. }
  by rewrite Hstart, parse_no_slash.
Qed.

(** X16. Where the pages go.  The page of a package with an ordinary name
    is [simple/<name>/index.html]; but for the names that are not path
    components, the empty name and the dot, which the identifiers
    [owner/] and [owner/.] give, the directory of the package is the index
    directory itself and its page is the root page. *)
Theorem index_path_of_package (pkg : string) :
  count_char "/" pkg = 0 →
  (is_component pkg = true →
     str (package_path_from_package_name pkg) = "simple/" +:+ pkg
     ∧ index_path pkg = "simple/" +:+ pkg +:+ "/index.html")
  ∧ (is_component pkg = false →
     package_path_from_package_name pkg = pypi_root_directory
     ∧ index_path pkg = root_index_path).
Proof.
  intros Hslash. unfold index_path, root_index_path,
    package_path_from_package_name.
  rewrite (joinpath_no_slash _ pkg) by done. split; intros Hc; rewrite Hc.
  - split; reflexivity.
  - split; [|done]. change (parts pypi_root_directory) with ["simple"].
    done.
Qed.

(** X17. Cloning and building use the same key.  When [_clone_repo]
    returns, the needed versions are stored under the second segment of
    the identifier; the clone path is the clone directory joined with that
    segment, and for an ordinary segment its last component, under which
    [_build_and_copy_wheels] looks the needed versions up, is the segment
    again. *)
Theorem build_finds_what_clone_stored repo (st st' : state World) :
  _clone_repo repo st = (Ok (), st') →
  ∃ repo_owner package_name needed,
    split "/" repo = [repo_owner; package_name]
    ∧ needed_versions (self st') !! package_name = Some needed
    ∧ (is_component package_name = true →
         name (joinpath (clone_dir (self st')) package_name) = package_name
         ∧ getitem (needed_versions (self st'))
             (name (joinpath (clone_dir (self st')) package_name))
           = Ok needed).
Proof.
  intros Hrun.
  destruct (_clone_repo_stores_needed repo st st' Hrun)
    as (o & p & st0 & st1 & tags & Hsplit & _ & _ & Hrec & _).
  assert (Hneeded : ∃ needed, needed_versions (self st') !! p = Some needed).
  { unfold reconcile in Hrec.
    apply bind_ok_inv in Hrec as (b & s1 & [= <- <-] & Hrec).
    apply bind_ok_inv in Hrec as (nd & s2 & [= _ <-] & Hrec).
    unfold set_needed_versions, bind, get_self, set_self in Hrec.
    injection Hrec as <-. eexists. apply lookup_insert_eq. }
  destruct Hneeded as (needed & Hneeded).
  exists o, p, needed. split; [done|]. split; [done|].
  intros Hc.
  assert (Hslash : count_char "/" p = 0).
  { pose proof (split_fields_no_sep "/" repo) as Hall. rewrite Hsplit in Hall.
    apply Forall_cons in Hall as [_ Hall]. by apply Forall_cons in Hall as [? _]. }
  assert (Hname : name (joinpath (clone_dir (self st')) p) = p).
  { rewrite joinpath_no_slash, Hc by done. unfold name. simpl.
    by rewrite last_snoc. }
  split; [done|]. rewrite Hname. unfold getitem. by rewrite Hneeded.
Qed.

(** ** Loops stop at the first failure *)

Lemma for_each_app {A} (l1 l2 : list A) (body : A → M World unit) st :
  for_each (l1 ++ l2) body st
  = match for_each l1 body st with
    | (Ok _, st1) => for_each l2 body st1
    | (Raise e, st1) => (Raise e, st1)
    end.
Proof.
  revert st. induction l1 as [|x l1 IH]; intros st; simpl; [done|].
  unfold bind. destruct (body x st) as [[[]|e] st1]; [apply IH|done].
Qed.

(** X18. [clone_repos] stops at the first repository that fails: when the
    repositories before it were processed and [_clone_repo] raises on it,
    [clone_repos] raises the same exception in the state that
    [_clone_repo] left, and no later repository is processed. *)
Theorem clone_repos_stops_at_first_failure (st st1 st2 : state World)
    l1 repo l2 e :
  repos (self st) = l1 ++ repo :: l2 →
  for_each l1 _clone_repo st = (Ok (), st1) →
  _clone_repo repo st1 = (Raise e, st2) →
  clone_repos st = (Raise e, st2).
Proof.
  intros Hrepos Hbefore Hfail. unfold clone_repos, bind, get_self.
  rewrite Hrepos, for_each_app, Hbefore. simpl. unfold bind.
  by rewrite Hfail.
Qed.

(** ** The tags of a repository *)

Lemma splitlines_from_line cur line rest :
  no_linebreak line = true →
  splitlines_from cur false (line +:+ newline +:+ rest)
  = (cur +:+ line) :: splitlines_from EmptyString false rest.
Proof.
  revert cur. induction line as [|c line IH]; intros cur Hline.
  - change (splitlines_from cur false (String "010" rest)
            = (cur +:+ EmptyString) :: splitlines_from EmptyString false rest).
    simpl. f_equal. clear. induction cur as [|x cur IH]; [done|].
    change (String x cur = String x (cur +:+ EmptyString)). by rewrite <- IH.
  - change (splitlines_from cur false (String c (line +:+ newline +:+ rest))
            = (cur +:+ String c line)
              :: splitlines_from EmptyString false rest).
    simpl in *. apply andb_prop in Hline as [Hc Hline].
    apply negb_true_iff in Hc. rewrite Hc.
    rewrite IH by done. f_equal.
    rewrite append_assoc. done.
Qed.

Lemma splitlines_unlines (lines : list string) :
  Forall (λ line, no_linebreak line = true) lines →
  splitlines (unlines lines) = lines.
Proof.
  unfold splitlines. induction 1 as [|line lines Hline _ IH]; [done|].
  simpl. rewrite splitlines_from_line by done. by rewrite IH.
Qed.

(** X19. [_get_repo_tags] returns the lines that [git tag] prints: when
    the command prints tags without line-breaking characters, each
    followed by a line feed, the result is the list of these tags, in the
    order printed, and only the call of the command is logged. *)
Theorem _get_repo_tags_returns_printed_tags git_clone_path
    (tags : list string) w (st : state World) :
  Forall (λ tag, no_linebreak tag = true) tags →
  os_check_output ["git"; "tag"; "--sort=v:refname"]
    (Some (str git_clone_path)) (world st) = (Ok (unlines tags), w) →
  _get_repo_tags git_clone_path st
  = (Ok tags,
     State (self st) w
       (log st ++ [EvCheckOutput ["git"; "tag"; "--sort=v:refname"]
                     (Some (str git_clone_path))])).
Proof.
  intros Htags Hout. unfold _get_repo_tags, bind, call, ret.
  rewrite Hout. by rewrite splitlines_unlines.
Qed.

(** ** The builder during the builds *)

Lemma for_fold_self {A S} (l : list A) (body : S → A → M World S) :
  (∀ s x st st' r, body s x st = (r, st') → self st' = self st) →
  ∀ s st st' r, for_fold l s body st = (r, st') → self st' = self st.
Proof.
  intros Hbody. induction l as [|x l IH]; intros s; simpl.
  - apply ret_self.
  - apply bind_self; [apply Hbody|]. intros s'. apply IH.
Qed.

Lemma build_and_copy_wheel_self g pkg idx version (st st' : state World) r :
  build_and_copy_wheel g pkg idx version st = (r, st') → self st' = self st.
Proof.
  unfold build_and_copy_wheel. revert st st' r.
  apply bind_self; [apply run_self|]. intros _.
  apply bind_self.
  { apply for_each_self. intros d.
    apply bind_self; [apply ask_self|]. intros present.
    destruct present; [apply call_self|apply ret_self]. }
  intros _. apply bind_self; [apply run_self|]. intros _.
  apply bind_self; [apply lift_self|]. intros i.
  apply bind_self; [apply run_self|]. intros _. apply ret_self.
Qed.

(** X20. Building records nothing: whether [build_all] returns or raises,
    the builder is as before; in particular the existing versions still
    are those of the scan in [__init__] and do not hold the versions just
    built. *)
Theorem build_all_leaves_builder (st st' : state World) r :
  build_all st = (r, st') → self st' = self st.
Proof.
  unfold build_all. revert st st' r.
  apply bind_self; [apply get_self_self|]. intros b.
  apply for_each_self. intros repo. unfold build_repo.
  apply bind_self; [apply lift_self|]. intros [o p].
  apply bind_self; [apply get_self_self|]. intros b'.
  unfold _build_and_copy_wheels.
  apply bind_self; [apply get_self_self|]. intros b''.
  apply bind_self; [apply lift_self|]. intros versions.
  apply bind_self; [|intros _; apply ret_self].
  apply for_fold_self. intros s x. apply build_and_copy_wheel_self.
Qed.

End Further.

(** ** The further properties at work *)

Lemma listing_order_is_irrelevant_witness :
  is_ok (scan_wheels "foo" ["foo-1.0-py3-none-any.whl"; "foo-2.0-py3-none-any.whl"] [])
  = is_ok (scan_wheels "foo" ["foo-2.0-py3-none-any.whl"; "foo-1.0-py3-none-any.whl"] []).
Proof.
  apply listing_order_is_irrelevant. apply Permutation_swap.
Defined.

Lemma more_existing_less_needed_witness :
  ∃ needed needed' tests,
    needed_comprehension {[ "foo" := ["1.2.3"] ]} "foo" Fake.foo_tags
    = Ok (needed, tests)
    ∧ needed_comprehension {[ "foo" := ["1.2.3"; "v1.2.3"] ]} "foo" Fake.foo_tags
      = Ok (needed', tests)
    ∧ needed' `sublist_of` needed.
Proof.
  apply (more_existing_less_needed _ _ "foo" ["1.2.3"] ["1.2.3"; "v1.2.3"]).
  - reflexivity.
  - reflexivity.
  - intros x Hx. apply list_elem_of_singleton in Hx as ->. by left.
Defined.

Lemma dashed_package_is_never_matched_witness :
  existing_versions (self (_detect_existing dashed_state).2) !! "my-pkg"
  = Some [].
Proof.
  apply (dashed_package_is_never_matched "my-pkg" dashed_state).
  - vm_compute. discriminate.
  - vm_compute. reflexivity.
  - simpl. by left.
Defined.

Lemma configured_repo_has_existing_versions_witness :
  ∃ repo_owner package_name ex,
    unpack2 (repo_owner_and_package_name_from_repo "owner/foo")
    = Ok (repo_owner, package_name)
    ∧ existing_versions
        (self (__init__ Fake.foo_config (State blank Fake.foo_world [])).2)
      !! package_name = Some ex.
Proof.
  destruct (configured_repo_has_existing_versions Fake.foo_config
              (State blank Fake.foo_world [])
              (__init__ Fake.foo_config (State blank Fake.foo_world [])).2
              "owner/foo")
    as (o & p & ex & H1 & _ & _ & H2 & _).
  - vm_compute. reflexivity.
  - vm_compute. by left.
  - reflexivity.
  - by exists o, p, ex.
Defined.

Lemma _clone_repo_keeps_existing_versions_witness :
  existing_versions (self (_clone_repo "owner/foo" Fake.foo_state).2)
  = existing_versions (self Fake.foo_state).
Proof.
  apply (_clone_repo_keeps_existing_versions "owner/foo" Fake.foo_state
           (_clone_repo "owner/foo" Fake.foo_state).2
           (_clone_repo "owner/foo" Fake.foo_state).1).
  vm_compute. reflexivity.
Defined.

Lemma clone_repos_keeps_existing_versions_witness :
  existing_versions (self (clone_repos three_repos_state).2)
  = existing_versions (self three_repos_state).
Proof.
  apply (clone_repos_keeps_existing_versions three_repos_state
           (clone_repos three_repos_state).2
           (clone_repos three_repos_state).1).
  vm_compute. reflexivity.
Defined.

Lemma __init___needs_clone_dir_witness :
  ∃ st', __init__ {[ "repos" := CList ["owner/foo"] ]}
           (State blank Fake.foo_world [])
         = (Raise (KeyError "clone_dir"), st')
         ∧ world st' = Fake.foo_world ∧ log st' = [].
Proof.
  apply (__init___needs_clone_dir {[ "repos" := CList ["owner/foo"] ]}
           (State blank Fake.foo_world []) (CList ["owner/foo"])).
  - reflexivity.
  - reflexivity.
Defined.

Lemma create_index_needs_second_fields_witness :
  ∃ out_file w1 w2,
    os_open_w (index_path "foo") Fake.foo_world = (Ok out_file, w1)
    ∧ os_write out_file html_header w1 = (Ok (), w2)
    ∧ Forall (λ f, is_Some (split "-" f !! 1)) (wheels_of w2 "foo").
Proof.
  apply (create_index_needs_second_fields "foo" Fake.foo_state
           (_create_index "foo" Fake.foo_state).2).
  vm_compute. reflexivity.
Defined.

Lemma create_indices_lists_every_package_witness :
  self (create_indices Fake.foo_state).2 = self Fake.foo_state.
Proof.
  apply (create_indices_lists_every_package Fake.foo_state
           (create_indices Fake.foo_state).2).
  vm_compute. reflexivity.
Defined.

Lemma version_text_starts_at_first_digit_witness :
  enumerate_until_digit 0 "v1.3.0" None = Some 1
  ∧ str_from 1 "v1.3.0" = "1.3.0".
Proof.
  apply (version_text_starts_at_first_digit "v" "1" ".3.0" None);
    reflexivity.
Defined.

Lemma tag_without_digit_keeps_last_character_witness :
  enumerate_until_digit 0 "latest" None = Some 5
  ∧ str_from 5 "latest" = "t".
Proof.
  apply (tag_without_digit_keeps_last_character "lates" "t" None).
  reflexivity.
Defined.

Lemma built_wheel_is_recognised_witness :
  "v1.3.0" ∈ registers "foo" (wheel_name "foo" "1.3.0").
Proof.
  destruct (built_wheel_is_recognised (parse "clones/foo") "foo" None
              "v" "1" ".3.0" Fake.foo_state
              (build_and_copy_wheel (parse "clones/foo") "foo" None "v1.3.0"
                 Fake.foo_state).2 (Some 1))
    as (src & _ & Hin).
  - vm_compute. reflexivity.
  - reflexivity.
  - reflexivity.
  - by right.
  - reflexivity.
  - reflexivity.
  - reflexivity.
  - exact Hin.
Defined.

Lemma other_prefix_is_never_recognised_witness :
  "rel1.3.0" ∉ registers "foo" (wheel_name "foo" "1.3.0").
Proof.
  destruct (other_prefix_is_never_recognised (parse "clones/foo") "foo" None
              "rel" "1" ".3.0" Fake.foo_state
              (build_and_copy_wheel (parse "clones/foo") "foo" None "rel1.3.0"
                 Fake.foo_state).2 (Some 3))
    as (src & _ & _ & Hout).
  - vm_compute. reflexivity.
  - reflexivity.
  - reflexivity.
  - reflexivity.
  - discriminate.
  - discriminate.
  - reflexivity.
  - reflexivity.
  - reflexivity.
  - exact Hout.
Defined.

Lemma main_without_repos_witness :
  existing_versions
    (self (@main _ NoRepos.os None (State blank Fake.foo_world [])).2) = ∅.
Proof.
  apply (@main_without_repos _ NoRepos.os None NoRepos.config "clones"
           Fake.foo_world (State blank Fake.foo_world [])
           (@main _ NoRepos.os None (State blank Fake.foo_world [])).2).
  - reflexivity.
  - reflexivity.
  - reflexivity.
  - reflexivity.
  - vm_compute. reflexivity.
Defined.

Lemma index_path_of_package_witness :
  index_path "foo" = "simple/foo/index.html"
  ∧ index_path "." = root_index_path.
Proof.
  split.
  - apply (index_path_of_package "foo"); reflexivity.
  - apply (index_path_of_package "."); reflexivity.
Defined.

Lemma build_finds_what_clone_stored_witness :
  ∃ repo_owner package_name needed,
    split "/" "owner/foo" = [repo_owner; package_name]
    ∧ needed_versions (self (_clone_repo "owner/foo" Fake.foo_state).2)
      !! package_name = Some needed.
Proof.
  destruct (build_finds_what_clone_stored "owner/foo" Fake.foo_state
              (_clone_repo "owner/foo" Fake.foo_state).2)
    as (o & p & needed & H1 & H2 & _).
  - vm_compute. reflexivity.
  - by exists o, p, needed.
Defined.

Lemma clone_repos_stops_at_first_failure_witness :
  (clone_repos three_repos_state).1 = Raise ValueError.
Proof.
  rewrite (clone_repos_stops_at_first_failure three_repos_state
             (for_each ["owner/foo"] _clone_repo three_repos_state).2
             (for_each ["owner/foo"] _clone_repo three_repos_state).2
             ["owner/foo"] "bar" ["owner/baz"] ValueError).
  - reflexivity.
  - reflexivity.
  - vm_compute. reflexivity.
  - vm_compute. reflexivity.
Defined.

Lemma _get_repo_tags_returns_printed_tags_witness :
  (_get_repo_tags (parse "clones/foo") Fake.foo_state).1 = Ok Fake.foo_tags.
Proof.
  rewrite (_get_repo_tags_returns_printed_tags (parse "clones/foo")
             Fake.foo_tags Fake.foo_world Fake.foo_state).
  - reflexivity.
  - by repeat constructor.
  - reflexivity.
Defined.

Lemma build_all_leaves_builder_witness :
  self (build_all (_clone_repo "owner/foo" Fake.foo_state).2).2
  = self (_clone_repo "owner/foo" Fake.foo_state).2.
Proof.
  apply (build_all_leaves_builder _ _
           (build_all (_clone_repo "owner/foo" Fake.foo_state).2).1).
  vm_compute. reflexivity.
Defined.

